(** * Pod status derivation and pod discovery loops of pkg/devspace/kubectl/util.go

    A shallow embedding of [GetPodStatus], [GetRunningPodsWithImage] and
    [GetNewestRunningPod], with the Kubernetes API objects reduced to the
    fields these functions read. *)

From Stdlib Require Import ZArith Lia Bool List DecimalString.
From stdpp Require Import base strings gmap list.
Import ListNotations.

Local Open Scope string_scope.
Local Open Scope list_scope.
Local Open Scope Z_scope.

(** ** Kubernetes API objects (k8s.io/api/core/v1), fields read by the code *)

Record ContainerStateWaiting := {
  WaitingReason : string
}.

Record ContainerStateRunning := {
  StartedAt : Z
}.

(** [ExitCode] and [Signal] are int32 in the API type. *)
Record ContainerStateTerminated := {
  ExitCode : Z;
  Signal : Z;
  TerminatedReason : string
}.

(** The three members are pointers in Go: each may be nil on its own. *)
Record ContainerState := {
  Waiting : option ContainerStateWaiting;
  Running : option ContainerStateRunning;
  Terminated : option ContainerStateTerminated
}.

Record ContainerStatus := {
  State : ContainerState;
  Ready : bool
}.

Record Container := {
  Image : string
}.

Record PodSpec := {
  InitContainers : list Container;
  Containers : list Container
}.

Record PodStatus := {
  Phase : string;
  Reason : string;
  InitContainerStatuses : list ContainerStatus;
  ContainerStatuses : list ContainerStatus
}.

(** Timestamps are instants; only their order ([After]) and presence
    ([DeletionTimestamp != nil]) are observed. *)
Record Pod := {
  Name : string;
  CreationTimestamp : Z;
  DeletionTimestamp : option Z;
  Spec : PodSpec;
  Status : PodStatus
}.

(** API objects are compared field by field. *)
#[export] Instance ContainerStateWaiting_eq_dec : EqDecision ContainerStateWaiting.
Proof. solve_decision. Defined.
#[export] Instance ContainerStateRunning_eq_dec : EqDecision ContainerStateRunning.
Proof. solve_decision. Defined.
#[export] Instance ContainerStateTerminated_eq_dec : EqDecision ContainerStateTerminated.
Proof. solve_decision. Defined.
#[export] Instance ContainerState_eq_dec : EqDecision ContainerState.
Proof. solve_decision. Defined.
#[export] Instance ContainerStatus_eq_dec : EqDecision ContainerStatus.
Proof. solve_decision. Defined.
#[export] Instance Container_eq_dec : EqDecision Container.
Proof. solve_decision. Defined.
#[export] Instance PodSpec_eq_dec : EqDecision PodSpec.
Proof. solve_decision. Defined.
#[export] Instance PodStatus_eq_dec : EqDecision PodStatus.
Proof. solve_decision. Defined.
#[export] Instance Pod_eq_dec : EqDecision Pod.
Proof. solve_decision. Defined.

(** Constants of imported packages that util.go refers to.
    [NodeUnreachablePodReason] is declared in k8s.io/kubernetes/pkg/util/node. *)
Class NodePkg := {
  NodeUnreachablePodReason : string
}.

(** ** fmt verbs *)

(** [fmt.Sprintf("%d", n)]: decimal digits, a leading minus sign when negative. *)
Definition fmt_d (n : Z) : string := NilZero.string_of_int (Z.to_int n).

(** ** GetPodStatus *)

(** The loop over [pod.Status.InitContainerStatuses], from index [i] on.
    Returns the reason and the [initializing] flag. *)
Fixpoint init_loop (total : nat) (i : nat) (statuses : list ContainerStatus)
    (reason : string) : string * bool :=
  match statuses with
  | [] => (reason, false)
  | container :: rest =>
    let dflt := ("Init:" +:+ fmt_d (Z.of_nat i) +:+ "/" +:+ fmt_d (Z.of_nat total), true) in
    match Terminated (State container) with
    | Some t =>
      if ExitCode t =? 0 then init_loop total (S i) rest reason
      else if (String.length (TerminatedReason t) =? 0)%nat then
        if negb (Signal t =? 0)
        then ("Init:Signal:" +:+ fmt_d (Signal t), true)
        else ("Init:ExitCode:" +:+ fmt_d (ExitCode t), true)
      else ("Init:" +:+ TerminatedReason t, true)
    | None =>
      match Waiting (State container) with
      | Some w =>
        if (0 <? String.length (WaitingReason w))%nat
           && negb (String.eqb (WaitingReason w) "PodInitializing")
        then ("Init:" +:+ WaitingReason w, true)
        else dflt
      | None => dflt
      end
    end
  end.

(** Body of the loop over [pod.Status.ContainerStatuses]; the accumulator is
    [(reason, hasRunning)]. The second and third arms of the source's
    if-chain both require [Terminated != nil] and split on its reason. *)
Definition main_step (acc : string * bool) (container : ContainerStatus) : string * bool :=
  let '(reason, hasRunning) := acc in
  let waiting :=
    match Waiting (State container) with
    | Some w => if negb (String.eqb (WaitingReason w) "") then Some (WaitingReason w) else None
    | None => None
    end in
  match waiting with
  | Some r => (r, hasRunning)
  | None =>
    match Terminated (State container) with
    | Some t =>
      if negb (String.eqb (TerminatedReason t) "") then (TerminatedReason t, hasRunning)
      else if negb (Signal t =? 0) then ("Signal:" +:+ fmt_d (Signal t), hasRunning)
      else ("ExitCode:" +:+ fmt_d (ExitCode t), hasRunning)
    | None =>
      if Ready container && bool_decide (is_Some (Running (State container)))
      then (reason, true) else (reason, hasRunning)
    end
  end.

(** [for i := len(statuses) - 1; i >= 0; i--]: the statuses are visited from
    the last one down to the first. *)
Definition main_loop (statuses : list ContainerStatus) (reason : string) : string * bool :=
  fold_left main_step (rev statuses) (reason, false).

Definition GetPodStatus `{NodePkg} (pod : Pod) : string :=
  let reason := Phase (Status pod) in
  let reason := if negb (String.eqb (Reason (Status pod)) "") then Reason (Status pod) else reason in
  let '(reason, initializing) :=
    init_loop (length (InitContainers (Spec pod))) 0
              (InitContainerStatuses (Status pod)) reason in
  let reason :=
    if negb initializing then
      let '(reason, hasRunning) := main_loop (ContainerStatuses (Status pod)) reason in
      if String.eqb reason "Completed" && hasRunning then "Running" else reason
    else reason in
  match DeletionTimestamp pod with
  | Some _ =>
    if String.eqb (Reason (Status pod)) NodeUnreachablePodReason then "Unknown"
    else "Terminating"
  | None => reason
  end.

(** ** Package-level status tables *)

Definition WaitStatus : list string :=
  ["ContainerCreating"; "PodInitializing"; "Pending"; "Terminating"].

Definition CriticalStatus : gmap string bool :=
  list_to_map
    [("Error", true); ("Unknown", true); ("ImagePullBackOff", true);
     ("CrashLoopBackOff", true); ("RunContainerError", true); ("ErrImagePull", true);
     ("CreateContainerConfigError", true); ("InvalidImageName", true)].

Definition OkayStatus : gmap string bool :=
  list_to_map [("Completed", true); ("Running", true)].

(** Indexing a Go [map[string]bool] with an absent key yields [false]. *)
Definition map_index (m : gmap string bool) (k : string) : bool := default false (m !! k).

(** ** time.Duration: int64 nanoseconds *)

Definition Duration := Z.

Definition wrap64 (z : Z) : Z := (z + 2 ^ 63) mod 2 ^ 64 - 2 ^ 63.

Definition Second : Duration := 1000000000.
Definition Minute : Duration := 60 * Second.

Definition dur_sub (a b : Duration) : Duration := wrap64 (a - b).
Definition dur_mul (a b : Duration) : Duration := wrap64 (a * b).

(** ** Errors *)

(** One constructor per [errors.Errorf] site of the two discovery loops, and
    one for an error handed back by the API client. *)
Inductive Error :=
| ApiError (msg : string)
| ErrPodCannotStart (name status : string)
| ErrWaitTimedOut (imageNames : list string) (namespace : string)
| ErrSelectedCannotStart (status : string)
| ErrCouldntFind (labelSelector namespace : string)
| ErrNoPodFound (labelSelector namespace : string).

(** [strings.Join(elems, sep)] *)
Definition strings_Join (elems : list string) (sep : string) : string := String.concat sep elems.

(** [err.Error()] *)
Definition Error_message (e : Error) : string :=
  match e with
  | ApiError msg => msg
  | ErrPodCannotStart name status =>
    "Pod '" +:+ name +:+ "' cannot start (Status: " +:+ status +:+ ")"
  | ErrWaitTimedOut imageNames namespace =>
    "Waiting for pods with image names '" +:+ strings_Join imageNames ","
      +:+ "' in namespace " +:+ namespace +:+ " timed out"
  | ErrSelectedCannotStart status =>
    "Selected Pod(s) cannot start (Status: " +:+ status +:+ ")"
  | ErrCouldntFind labelSelector namespace =>
    "Couldn't find a pod with selector " +:+ labelSelector +:+ " in namespace " +:+ namespace
  | ErrNoPodFound labelSelector namespace =>
    "No pod with selector " +:+ labelSelector +:+ " in namespace " +:+ namespace +:+ " found"
  end.

(** A Go [(value, error)] result in which exactly one side is non-nil. *)
Inductive Outcome (A : Type) :=
| Returned (a : A)
| Failed (e : Error).
Arguments Returned {A} a.
Arguments Failed {A} e.

(** ** The cluster and the clock, as seen by the loops *)

(** [Size] stands for the generated [PodList.Size()] method of k8s.io/api,
    which is not part of this repository: its value comes with the response. *)
Record PodList := {
  Size : Z;
  Items : list Pod
}.

Inductive ListResult :=
| ListOk (podList : PodList)
| ListErr (msg : string).

(** [PodsList n namespace labelSelector] is the answer of the API server to
    the [n]-th List call (counted from 0) of one discovery run. *)
Record Client := {
  Namespace : string;
  PodsList : nat -> string -> string -> ListResult
}.

(** [Since n] is what [time.Since(now)] reads during the iteration that makes
    the [n]-th List call. *)
Record Clock := {
  Since : nat -> Duration
}.

Inductive Event :=
| EvSleep (d : Duration)
| EvList (namespace labelSelector : string).

(** Effects performed so far: the number of List calls and the full trace. *)
Record Sys := {
  calls : nat;
  trace : list Event
}.

Definition sys0 : Sys := {| calls := 0; trace := [] |}.

Definition sleep (d : Duration) (s : Sys) : Sys :=
  {| calls := calls s; trace := trace s ++ [EvSleep d] |}.

Definition list_pods (client : Client) (namespace labelSelector : string) (s : Sys)
    : ListResult * Sys :=
  (PodsList client (calls s) namespace labelSelector,
   {| calls := S (calls s); trace := trace s ++ [EvList namespace labelSelector] |}).

(** One pass through a loop body either leaves the function or falls through
    to the loop's post statement and condition. *)
Inductive Step (S R : Type) :=
| Continue (s : S)
| Return (r : R).
Arguments Continue {S R} s.
Arguments Return {S R} r.

Definition waitingInterval : Duration := dur_mul 1 Second.

(** Both inner loops [for container ... { for imageName ... { if imageName ==
    container.Image ...] leave the container loop at the first match. *)
Definition matches_image (imageNames : list string) (containers : list Container) : bool :=
  existsb (fun container =>
             existsb (fun imageName => String.eqb imageName (Image container)) imageNames)
          containers.

(** ** GetRunningPodsWithImage *)

Inductive PodLoopResult :=
| PodLoopCritical (name status : string)
| PodLoopDone (pods : list Pod) (wait : bool).

(** [PodLoop]: the loop over [podList.Items]. *)
Fixpoint pod_loop `{NodePkg} (imageNames : list string) (items : list Pod) (pods : list Pod)
    : PodLoopResult :=
  match items with
  | [] => PodLoopDone pods false
  | currentPod :: rest =>
    let podStatus := GetPodStatus currentPod in
    if matches_image imageNames (Containers (Spec currentPod)) then
      if map_index CriticalStatus podStatus then PodLoopCritical (Name currentPod) podStatus
      else if String.eqb podStatus "Completed" then pod_loop imageNames rest pods
      else if negb (String.eqb podStatus "Running") then PodLoopDone pods true
      else pod_loop imageNames rest (pods ++ [currentPod])
    else pod_loop imageNames rest pods
  end.

Record ImagesLoop := {
  il_maxWaiting : Duration;
  il_minWait : Duration;
  il_sys : Sys
}.

Definition images_iteration `{NodePkg} (client : Client) (imageNames : list string)
    (namespace : string) (st : ImagesLoop)
    : Step ImagesLoop (Outcome (list Pod) * Sys) :=
  let s := sleep waitingInterval (il_sys st) in
  let '(res, s) := list_pods client namespace "" s in
  match res with
  | ListErr msg => Return (Failed (ApiError msg), s)
  | ListOk podList =>
    let next :=
      Continue {| il_maxWaiting := dur_sub (il_maxWaiting st) (dur_mul waitingInterval 2);
                  il_minWait := dur_sub (il_minWait st) (dur_mul waitingInterval 2);
                  il_sys := sleep waitingInterval s |} in
    if (0 <? length (Items podList))%nat then
      match pod_loop imageNames (Items podList) [] with
      | PodLoopCritical name status => Return (Failed (ErrPodCannotStart name status), s)
      | PodLoopDone pods wait =>
        if negb wait && ((0 <? length pods)%nat || (il_minWait st <=? 0))
        then Return (Returned pods, s)
        else next
      end
    else next
  end.

(** [for maxWaiting >= 0 { ... }] followed by the final [return]. One unit of
    fuel is spent per evaluation of the loop condition. *)
Fixpoint images_loop `{NodePkg} (fuel : nat) (client : Client) (imageNames : list string)
    (namespace : string) (st : ImagesLoop) : option (Outcome (list Pod) * Sys) :=
  match fuel with
  | O => None
  | S fuel' =>
    if 0 <=? il_maxWaiting st then
      match images_iteration client imageNames namespace st with
      | Return r => Some r
      | Continue st' => images_loop fuel' client imageNames namespace st'
      end
    else Some (Failed (ErrWaitTimedOut imageNames namespace), il_sys st)
  end.

Definition effective_namespace (client : Client) (namespace : string) : string :=
  if String.eqb namespace "" then Namespace client else namespace.

Definition GetRunningPodsWithImage `{NodePkg} (fuel : nat) (client : Client)
    (imageNames : list string) (namespace : string) (maxWaiting : Duration)
    : option (Outcome (list Pod) * Sys) :=
  let namespace := effective_namespace client namespace in
  images_loop fuel client imageNames namespace
    {| il_maxWaiting := maxWaiting; il_minWait := dur_mul 60 Second; il_sys := sys0 |}.

(** ** GetNewestRunningPod *)

(** The loop that picks the pod with the latest creation timestamp. *)
Fixpoint select_loop (imageSelector : list string) (items : list Pod)
    (selectedPod : option Pod) : option Pod :=
  match items with
  | [] => selectedPod
  | currentPod :: rest =>
    let newer :=
      match selectedPod with
      | None => true
      | Some sel => CreationTimestamp sel <? CreationTimestamp currentPod
      end in
    let selectedPod :=
      if newer then
        if (0 <? length imageSelector)%nat then
          if matches_image imageSelector (Containers (Spec currentPod))
          then Some currentPod else selectedPod
        else Some currentPod
      else selectedPod in
    select_loop imageSelector rest selectedPod
  end.

(** The chain of comparisons at util.go:262. *)
Definition cannot_start (podStatus : string) : bool :=
  String.eqb podStatus "Error" || String.eqb podStatus "Unknown"
  || String.eqb podStatus "ImagePullBackOff" || String.eqb podStatus "CrashLoopBackOff"
  || String.eqb podStatus "RunContainerError" || String.eqb podStatus "ErrImagePull"
  || String.eqb podStatus "CreateContainerConfigError"
  || String.eqb podStatus "InvalidImageName".

Record NewestLoop := {
  nl_maxWaiting : Duration;
  nl_sys : Sys
}.

Definition newest_iteration `{NodePkg} (clock : Clock) (client : Client)
    (labelSelector : string) (imageSelector : list string) (namespace : string)
    (st : NewestLoop) : Step NewestLoop (Outcome Pod * Sys) :=
  let n := calls (nl_sys st) in
  let s := sleep waitingInterval (nl_sys st) in
  let '(res, s) := list_pods client namespace labelSelector s in
  match res with
  | ListErr msg => Return (Failed (ApiError msg), s)
  | ListOk podList =>
    let next :=
      Continue {| nl_maxWaiting := dur_sub (nl_maxWaiting st) (dur_mul waitingInterval 2);
                  nl_sys := sleep waitingInterval s |} in
    if (0 <? Size podList) && (0 <? length (Items podList))%nat then
      match select_loop imageSelector (Items podList) None with
      | Some selectedPod =>
        let podStatus := GetPodStatus selectedPod in
        if String.eqb podStatus "Running" then Return (Returned selectedPod, s)
        else if cannot_start podStatus
        then Return (Failed (ErrSelectedCannotStart podStatus), s)
        else next
      | None =>
        if Minute <? Since clock n
        then Return (Failed (ErrCouldntFind labelSelector namespace), s)
        else next
      end
    else next
  end.

(** [for ok := true; ok; ok = maxWaiting > 0 { ... }]: the body runs once
    before the condition is first looked at. *)
Fixpoint newest_loop `{NodePkg} (fuel : nat) (clock : Clock) (client : Client)
    (labelSelector : string) (imageSelector : list string) (namespace : string)
    (st : NewestLoop) : option (Outcome Pod * Sys) :=
  match fuel with
  | O => None
  | S fuel' =>
    match newest_iteration clock client labelSelector imageSelector namespace st with
    | Return r => Some r
    | Continue st' =>
      if 0 <? nl_maxWaiting st'
      then newest_loop fuel' clock client labelSelector imageSelector namespace st'
      else Some (Failed (ErrNoPodFound labelSelector namespace), nl_sys st')
    end
  end.

Definition GetNewestRunningPod `{NodePkg} (fuel : nat) (clock : Clock) (client : Client)
    (labelSelector : string) (imageSelector : list string) (namespace : string)
    (maxWaiting : Duration) : option (Outcome Pod * Sys) :=
  let namespace := effective_namespace client namespace in
  newest_loop fuel clock client labelSelector imageSelector namespace
    {| nl_maxWaiting := maxWaiting; nl_sys := sys0 |}.

(** The value the constant has in k8s.io/kubernetes, for running the model on
    concrete pods. *)
#[export] Instance upstream_node : NodePkg := {| NodeUnreachablePodReason := "NodeLost" |}.

(** ** Vocabulary for stating properties of the classifier *)

(** The reason reported at the pod level, where [GetPodStatus] starts. *)
Definition pod_level_reason (pod : Pod) : string :=
  if negb (String.eqb (Reason (Status pod)) "") then Reason (Status pod)
  else Phase (Status pod).

(** An init container that terminated with exit code 0. *)
Definition init_succeeded (c : ContainerStatus) : bool :=
  match Terminated (State c) with
  | Some t => ExitCode t =? 0
  | None => false
  end.

(** The status a main container exposes on its own, if any: a non-empty
    waiting reason, else a non-empty terminated reason, else the signal or
    exit code of a termination without reason. *)
Definition waiting_reason (c : ContainerStatus) : option string :=
  match Waiting (State c) with
  | Some w => if String.eqb (WaitingReason w) "" then None else Some (WaitingReason w)
  | None => None
  end.

Definition terminated_reason (c : ContainerStatus) : option string :=
  match Terminated (State c) with
  | Some t =>
    Some (if negb (String.eqb (TerminatedReason t) "") then TerminatedReason t
          else if negb (Signal t =? 0) then "Signal:" +:+ fmt_d (Signal t)
          else "ExitCode:" +:+ fmt_d (ExitCode t))
  | None => None
  end.

Definition container_reason (c : ContainerStatus) : option string :=
  match waiting_reason c with
  | Some r => Some r
  | None => terminated_reason c
  end.

(** A container that exposes no status, is ready and has a running state. *)
Definition live (c : ContainerStatus) : bool :=
  match container_reason c with
  | Some _ => false
  | None => Ready c && bool_decide (is_Some (Running (State c)))
  end.

(** The status exposed by the first-declared container that exposes one. *)
Fixpoint first_reason (statuses : list ContainerStatus) : option string :=
  match statuses with
  | [] => None
  | c :: rest =>
    match container_reason c with
    | Some r => Some r
    | None => first_reason rest
    end
  end.

(** ** Vocabulary for stating properties of the discovery loops *)

(** The effects of one pass up to and including the List call, and of one
    complete pass that falls through to the second sleep. *)
Definition after_poll (namespace labelSelector : string) (s : Sys) : Sys :=
  {| calls := S (calls s);
     trace := trace s ++ [EvSleep Second; EvList namespace labelSelector] |}.

Definition after_iteration (namespace labelSelector : string) (s : Sys) : Sys :=
  {| calls := S (calls s);
     trace := trace s ++ [EvSleep Second; EvList namespace labelSelector; EvSleep Second] |}.

(** A pod passes the image filter when the filter is empty or one of its
    declared containers has an image of the filter. *)
Definition passes (imageSelector : list string) (pod : Pod) : bool :=
  negb (0 <? length imageSelector)%nat
  || matches_image imageSelector (Containers (Spec pod)).

(** The statuses listed at util.go:262. *)
Definition critical_statuses : list string :=
  ["Error"; "Unknown"; "ImagePullBackOff"; "CrashLoopBackOff"; "RunContainerError";
   "ErrImagePull"; "CreateContainerConfigError"; "InvalidImageName"].

(** Number of passes of the [for maxWaiting >= 0] loop when no pass returns. *)
Definition images_passes (maxWaiting : Duration) : nat :=
  if 0 <=? maxWaiting then Z.to_nat (maxWaiting / (2 * Second)) + 1 else 0.

(** Number of passes of the [for ok := true; ok; ok = maxWaiting > 0] loop
    when no pass returns and the budget does not wrap around. *)
Definition newest_passes (maxWaiting : Duration) : nat :=
  Z.to_nat (Z.max 1 ((maxWaiting + 2 * Second - 1) / (2 * Second))).

(** What the [n]-th List call must have answered for [GetNewestRunningPod] to
    leave its loop body with [r] in the pass that made this call. *)
Definition returned_at `{NodePkg} (clock : Clock) (client : Client)
    (labelSelector : string) (imageSelector : list string) (namespace : string)
    (n : nat) (r : Outcome Pod) : Prop :=
  match PodsList client n namespace labelSelector with
  | ListErr msg => r = Failed (ApiError msg)
  | ListOk podList =>
    0 < Size podList /\ Items podList <> [] /\
    match select_loop imageSelector (Items podList) None with
    | Some pod =>
      (GetPodStatus pod = "Running" /\ r = Returned pod) \/
      (In (GetPodStatus pod) critical_statuses /\
       r = Failed (ErrSelectedCannotStart (GetPodStatus pod)))
    | None =>
      Minute < Since clock n /\ r = Failed (ErrCouldntFind labelSelector namespace)
    end
  end.

(** ** Example snapshots *)

Definition waiting (reason : string) : ContainerStatus :=
  {| State := {| Waiting := Some {| WaitingReason := reason |};
                 Running := None; Terminated := None |};
     Ready := false |}.

Definition running (ready : bool) : ContainerStatus :=
  {| State := {| Waiting := None; Running := Some {| StartedAt := 0 |};
                 Terminated := None |};
     Ready := ready |}.

Definition terminated (code sig : Z) (reason : string) : ContainerStatus :=
  {| State := {| Waiting := None; Running := None;
                 Terminated := Some {| ExitCode := code; Signal := sig;
                                       TerminatedReason := reason |} |};
     Ready := false |}.

Definition snapshot (name : string) (created : Z) (deleted : option Z)
    (images initImages : list string) (phase reason : string)
    (inits mains : list ContainerStatus) : Pod :=
  {| Name := name; CreationTimestamp := created; DeletionTimestamp := deleted;
     Spec := {| InitContainers := map (fun i => {| Image := i |}) initImages;
                Containers := map (fun i => {| Image := i |}) images |};
     Status := {| Phase := phase; Reason := reason;
                  InitContainerStatuses := inits; ContainerStatuses := mains |} |}.

(** Two containers waiting for different reasons. *)
Definition pod_two_waiting : Pod :=
  snapshot "web" 10 None ["app:v1"; "proxy:v1"] [] "Pending" ""
    [] [waiting "CrashLoopBackOff"; waiting "ImagePullBackOff"].

(** An init container is still running; the main containers wait for it. *)
Definition pod_init_running : Pod :=
  snapshot "web" 10 None ["app:v1"; "proxy:v1"] ["setup:v1"] "Pending" ""
    [running false] [waiting "PodInitializing"; waiting "PodInitializing"].

(** A finished job container, a crashing one and a live sidecar. *)
Definition pod_completed_sidecar : Pod :=
  snapshot "job" 10 None ["job:v1"; "helper:v1"; "proxy:v1"] [] "Running" ""
    [] [terminated 0 0 "Completed"; waiting "CrashLoopBackOff"; running true].

(** A finished job container next to a live sidecar. *)
Definition pod_job_sidecar : Pod :=
  snapshot "job" 10 None ["job:v1"; "proxy:v1"] [] "Running" ""
    [] [terminated 0 0 "Completed"; running true].

Definition pod_running : Pod :=
  snapshot "web" 10 None ["app:v1"] [] "Running" "" [] [running true].

(** The container already runs and is ready while the phase still says Pending. *)
Definition pod_pending_running : Pod :=
  snapshot "web" 10 None ["app:v1"] [] "Pending" "" [] [running true].

Definition pod_init_failed : Pod :=
  snapshot "web" 10 None ["app:v1"] ["setup:v1"; "migrate:v1"] "Pending" ""
    [terminated 0 0 "Completed"; terminated 3 0 ""] [waiting "PodInitializing"].

Definition pod_init_failed_deleted : Pod :=
  snapshot "web" 10 (Some 20) ["app:v1"] ["setup:v1"] "Pending" ""
    [terminated 3 0 ""] [waiting "PodInitializing"].

Definition pod_init_killed : Pod :=
  snapshot "web" 10 None ["app:v1"] ["setup:v1"] "Pending" ""
    [terminated 137 9 ""] [waiting "PodInitializing"].

Definition pod_init_second_failed : Pod :=
  snapshot "web" 10 None ["app:v1"] ["setup:v1"; "migrate:v1"] "Pending" ""
    [waiting "ImagePullBackOff"; terminated 3 0 ""] [waiting "PodInitializing"].

Definition pod_deleted : Pod :=
  snapshot "web" 10 (Some 20) ["app:v1"] [] "Running" "" [] [running true].

Definition pod_deleted_node_lost `{NodePkg} : Pod :=
  snapshot "web" 10 (Some 20) ["app:v1"] [] "Running" NodeUnreachablePodReason
    [] [waiting "CrashLoopBackOff"].

(** ** Example clusters and clocks *)

(** A cluster without any pod. *)
Definition empty_cluster : Client :=
  {| Namespace := "default";
     PodsList := fun _ _ _ => ListOk {| Size := 2; Items := [] |} |}.

(** A cluster that always answers with the given pods. *)
Definition steady_cluster (pods : list Pod) : Client :=
  {| Namespace := "default";
     PodsList := fun _ _ _ => ListOk {| Size := 2 + Z.of_nat (length pods); Items := pods |} |}.

(** A clock under which every sleep takes exactly its duration and nothing
    else takes time. *)
Definition exact_clock : Clock :=
  {| Since := fun n => (2 * Z.of_nat n + 1) * Second |}.

Definition pod_crash_loop : Pod :=
  snapshot "web" 10 None ["app:v1"] [] "Running" "" [] [waiting "CrashLoopBackOff"].

Definition pod_old : Pod :=
  snapshot "web-1" 10 None ["app:v1"] [] "Running" "" [] [running true].

Definition pod_new : Pod :=
  snapshot "web-2" 20 None ["app:v1"] [] "Running" "" [] [running true].

Definition pod_newest_other_image : Pod :=
  snapshot "db" 30 None ["postgres:13"] [] "Running" "" [] [running true].

(** ** strings.HasSuffix and strings.TrimSuffix *)

Definition strings_HasSuffix (s suffix : string) : bool :=
  (String.length suffix <=? String.length s)%nat
  && String.eqb (String.substring (String.length s - String.length suffix)
                                  (String.length suffix) s) suffix.

Definition strings_TrimSuffix (s suffix : string) : string :=
  if strings_HasSuffix s suffix
  then String.substring 0 (String.length s - String.length suffix) s
  else s.

(** The escapes [\r] and [\n] of Go string literals. *)
Definition CR : string := String (Ascii.ascii_of_nat 13) "".
Definition LF : string := String (Ascii.ascii_of_nat 10) "".

(** ** Setup helpers of util.go *)

Definition ClusterRoleBindingName : string := "devspace-user".

Definition minikubeContext : string := "minikube".
Definition dockerDesktopContext : string := "docker-desktop".
Definition dockerForDesktopContext : string := "docker-for-desktop".

(** rbac/v1 objects, fields set by the code. *)
Record Subject := {
  SubjectKind : string;
  SubjectName : string
}.

Record RoleRef := {
  APIGroup : string;
  RoleKind : string;
  RoleName : string
}.

Record ClusterRoleBinding := {
  BindingName : string;
  Subjects : list Subject;
  Role : RoleRef
}.

(** Fields of [client.RestConfig] read by the code; both are pointers. *)
Record AuthProviderConfig := {
  ProviderName : string
}.

Record RestConfig := {
  AuthProvider : option AuthProviderConfig
}.

(** Further state of the client and the answers of the outside world to the
    setup helpers: an error is [Some msg], success is [None]. [GcloudAccount]
    is the output and the error of the [gcloud config list account] command.
    [DeploymentsGet namespace name] answers with the deployment's
    [Spec.Selector.MatchLabels]; a deployment whose selector pointer is nil,
    on which the code would panic, is left out. *)
Record Setup := {
  CurrentContext : string;
  ClientRestConfig : option RestConfig;
  NamespacesGet : string -> option string;
  NamespacesCreate : string -> option string;
  ClusterRoleBindingsGet : string -> option string;
  ClusterRoleBindingsCreate : ClusterRoleBinding -> option string;
  GcloudAccount : string * option string;
  DeploymentsGet : string -> string -> gmap string string + string
}.

Inductive SetupEvent :=
| EvNamespaceGet (name : string)
| EvNamespaceCreate (name : string)
| EvLogDone (msg : string)
| EvLogStartWait (msg : string)
| EvLogStopWait
| EvBindingGet (name : string)
| EvBindingCreate (binding : ClusterRoleBinding)
| EvGcloud
| EvDeploymentGet (namespace name : string)
| EvPodsList (namespace labelSelector : string).

Inductive SetupError :=
| SetupApiError (msg : string)
| ErrNoGoogleUser
| ErrNoMatchLabels.

Definition SetupError_message (e : SetupError) : string :=
  match e with
  | SetupApiError msg => msg
  | ErrNoGoogleUser =>
    "Couldn't determine google cloud username. Make sure you are logged in to gcloud"
  | ErrNoMatchLabels => "No matchLabels defined deployment"
  end.

Definition IsLocalKubernetes (context : string) : bool :=
  String.eqb context minikubeContext || String.eqb context dockerDesktopContext
  || String.eqb context dockerForDesktopContext.

(** Returns the error ([None] for nil) and the calls and log lines made. *)
Definition EnsureDefaultNamespace (client : Client) (setup : Setup)
    : option SetupError * list SetupEvent :=
  match NamespacesGet setup (Namespace client) with
  | Some _ =>
    (SetupApiError <$> NamespacesCreate setup (Namespace client),
     [EvNamespaceGet (Namespace client); EvNamespaceCreate (Namespace client);
      EvLogDone ("Created namespace: " +:+ Namespace client)])
  | None => (None, [EvNamespaceGet (Namespace client)])
  end.

(** The account name taken from the output of gcloud. *)
Definition gcloud_email (gcloudOutput : string) : string :=
  strings_TrimSuffix (strings_TrimSuffix gcloudOutput (CR +:+ LF)) LF.

Definition admin_binding (username : string) : ClusterRoleBinding :=
  {| BindingName := ClusterRoleBindingName;
     Subjects := [{| SubjectKind := "User"; SubjectName := username |}];
     Role := {| APIGroup := "rbac.authorization.k8s.io"; RoleKind := "ClusterRole";
                RoleName := "cluster-admin" |} |}.

Definition uses_gcp (setup : Setup) : bool :=
  match ClientRestConfig setup with
  | Some config =>
    match AuthProvider config with
    | Some provider => String.eqb (ProviderName provider) "gcp"
    | None => false
    end
  | None => false
  end.

Definition EnsureGoogleCloudClusterRoleBinding (setup : Setup)
    : option SetupError * list SetupEvent :=
  if IsLocalKubernetes (CurrentContext setup) then (None, [])
  else
    match ClusterRoleBindingsGet setup ClusterRoleBindingName with
    | Some _ =>
      if uses_gcp setup then
        let username := "" in
        let '(gcloudOutput, gcloudErr) := GcloudAccount setup in
        let events := [EvBindingGet ClusterRoleBindingName;
                       EvLogStartWait "Checking gcloud account"; EvGcloud; EvLogStopWait] in
        let username :=
          match gcloudErr with
          | None =>
            let gcloudEmail := gcloud_email gcloudOutput in
            if negb (String.eqb gcloudEmail "") then gcloudEmail else username
          | Some _ => username
          end in
        if String.eqb username "" then (Some ErrNoGoogleUser, events)
        else
          let rolebinding := admin_binding username in
          match ClusterRoleBindingsCreate setup rolebinding with
          | Some err => (Some (SetupApiError err), events ++ [EvBindingCreate rolebinding])
          | None => (None, events ++ [EvBindingCreate rolebinding])
          end
      else (None, [EvBindingGet ClusterRoleBindingName])
    | None => (None, [EvBindingGet ClusterRoleBindingName])
    end.

(** The loop [for k, v := range matchLabels] over the entries in the order
    in which the range statement yields them. *)
Definition label_step (matchLabelString : string) (entry : string * string) : string :=
  let matchLabelString :=
    if (0 <? String.length matchLabelString)%nat
    then matchLabelString +:+ "," else matchLabelString in
  matchLabelString +:+ fst entry +:+ "=" +:+ snd entry.

(** [range] is the order in which the Go runtime visits a map; it is not
    fixed by the language. The result is the answer of the List call, or the
    error, with the calls made. *)
Definition GetPodsFromDeployment (range : gmap string string -> list (string * string))
    (client : Client) (setup : Setup) (deployment namespace : string)
    : (PodList + SetupError) * list SetupEvent :=
  let namespace := effective_namespace client namespace in
  match DeploymentsGet setup namespace deployment with
  | inr err => (inr (SetupApiError err), [EvDeploymentGet namespace deployment])
  | inl matchLabels =>
    if (size matchLabels <=? 0)%nat
    then (inr ErrNoMatchLabels, [EvDeploymentGet namespace deployment])
    else
      let matchLabelString := fold_left label_step (range matchLabels) "" in
      (match PodsList client 0 namespace matchLabelString with
       | ListOk podList => inl podList
       | ListErr msg => inr (SetupApiError msg)
       end,
       [EvDeploymentGet namespace deployment; EvPodsList namespace matchLabelString])
  end.

(** ** Pull secrets of the default service account (package registry) *)

Record LocalObjectReference := {
  RefName : string
}.

Record ServiceAccount := {
  ImagePullSecrets : list LocalObjectReference
}.

(** Answers of the ServiceAccounts API: [Get namespace name] and
    [Update namespace account]. *)
Record ServiceAccounts := {
  ServiceAccountsGet : string -> string -> ServiceAccount + string;
  ServiceAccountsUpdate : string -> ServiceAccount -> option string
}.

Inductive RegistryEvent :=
| EvAccountGet (namespace name : string)
| EvAccountUpdate (namespace : string) (account : ServiceAccount)
| EvLogError (msg : string).

(** [errors.Wrap(err, msg)], whose message is [msg: err]. *)
Inductive RegistryError :=
| ErrWrap (msg : string) (err : string).

Definition RegistryError_message (e : RegistryError) : string :=
  match e with
  | ErrWrap msg err => msg +:+ ": " +:+ err
  end.

(** Body of the loop over [pullSecrets]; the accumulator is
    [(serviceaccount.ImagePullSecrets, changed)]. *)
Definition secret_step (acc : list LocalObjectReference * bool) (newPullSecret : string)
    : list LocalObjectReference * bool :=
  let '(secrets, changed) := acc in
  let found := existsb (fun pullSecret => String.eqb (RefName pullSecret) newPullSecret)
                       secrets in
  if negb found then (secrets ++ [{| RefName := newPullSecret |}], true)
  else (secrets, changed).

Definition addPullSecretsToServiceAccount (client : Client) (api : ServiceAccounts)
    (pullSecrets : list string) : option RegistryError * list RegistryEvent :=
  match ServiceAccountsGet api (Namespace client) "default" with
  | inr err =>
    (None,
     [EvAccountGet (Namespace client) "default";
      EvLogError ("Couldn't find service account 'default' in namespace '"
                  +:+ Namespace client +:+ "': " +:+ err)])
  | inl serviceaccount =>
    let '(secrets, changed) :=
      fold_left secret_step pullSecrets (ImagePullSecrets serviceaccount, false) in
    if changed then
      let updated := {| ImagePullSecrets := secrets |} in
      (ErrWrap "update service account"
         <$> ServiceAccountsUpdate api (Namespace client) updated,
       [EvAccountGet (Namespace client) "default";
        EvAccountUpdate (Namespace client) updated])
    else (None, [EvAccountGet (Namespace client) "default"])
  end.

(** A service account API whose default account holds two pull secrets. *)
Definition two_secrets : ServiceAccounts :=
  {| ServiceAccountsGet := fun _ _ =>
       inl {| ImagePullSecrets := [{| RefName := "hub" |}; {| RefName := "gcr" |}] |};
     ServiceAccountsUpdate := fun _ _ => None |}.

(** A service account API that refuses every Update. *)
Definition read_only_accounts : ServiceAccounts :=
  {| ServiceAccountsGet := fun _ _ => inl {| ImagePullSecrets := [{| RefName := "hub" |}] |};
     ServiceAccountsUpdate := fun _ _ => Some "forbidden" |}.

(** A label as it appears in a selector string. *)
Definition label_pair (entry : string * string) : string :=
  fst entry +:+ "=" +:+ snd entry.

(** A remote cluster reached through the gcp auth provider, without the
    devspace binding, where gcloud prints the given output. *)
Definition gcp_setup (gcloudOutput : string) (gcloudErr : option string) : Setup :=
  {| CurrentContext := "gke_project_zone_cluster";
     ClientRestConfig := Some {| AuthProvider := Some {| ProviderName := "gcp" |} |};
     NamespacesGet := fun _ => Some "not found";
     NamespacesCreate := fun _ => Some "forbidden";
     ClusterRoleBindingsGet := fun _ => Some "not found";
     ClusterRoleBindingsCreate := fun _ => None;
     GcloudAccount := (gcloudOutput, gcloudErr);
     DeploymentsGet := fun _ _ =>
       inl (<["app" := "web"]> (<["tier" := "front"]> ∅)) |}.

(** A service account API without a default service account. *)
Definition no_default_account : ServiceAccounts :=
  {| ServiceAccountsGet := fun _ _ => inr "serviceaccounts default not found";
     ServiceAccountsUpdate := fun _ _ => None |}.

(** A List answer on which a pass of [GetRunningPodsWithImage] resolves
    nothing, when [minWait] is what is left of the minimum wait: the answer
    is no error, and it lists no pod, or its scan ends waiting, or the scan
    collects no pod while the minimum wait is not yet used up. *)
Definition keeps_waiting `{NodePkg} (imageNames : list string) (minWait : Duration)
    (answer : ListResult) : Prop :=
  match answer with
  | ListErr _ => False
  | ListOk podList =>
    Items podList = [] \/
    match pod_loop imageNames (Items podList) [] with
    | PodLoopCritical _ _ => False
    | PodLoopDone pods wait => wait = true \/ (pods = [] /\ 0 < minWait)
    end
  end.

(** ** Further vocabulary *)

(** The same pod with other main container statuses. *)
Definition with_container_statuses (pod : Pod) (mains : list ContainerStatus) : Pod :=
  {| Name := Name pod; CreationTimestamp := CreationTimestamp pod;
     DeletionTimestamp := DeletionTimestamp pod; Spec := Spec pod;
     Status := {| Phase := Phase (Status pod); Reason := Reason (Status pod);
                  InitContainerStatuses := InitContainerStatuses (Status pod);
                  ContainerStatuses := mains |} |}.

(** The trace of [k] complete passes of a discovery loop. *)
Definition passes_trace (namespace labelSelector : string) (k : nat) : list Event :=
  concat (repeat [EvSleep Second; EvList namespace labelSelector; EvSleep Second] k).

(** A pod that [GetRunningPodsWithImage] collects: one of its containers has
    a wanted image and its status is "Running". *)
Definition collected `{NodePkg} (imageNames : list string) (pod : Pod) : bool :=
  matches_image imageNames (Containers (Spec pod)) && String.eqb (GetPodStatus pod) "Running".

(** A pod that lets the scan of [GetRunningPodsWithImage] go on: it has no
    wanted image, or its status is "Running" or "Completed". *)
Definition settled `{NodePkg} (imageNames : list string) (pod : Pod) : bool :=
  negb (matches_image imageNames (Containers (Spec pod)))
  || String.eqb (GetPodStatus pod) "Running" || String.eqb (GetPodStatus pod) "Completed".

(** * Properties of the status classifier *)

Lemma main_step_reason (reason : string) (hasRunning : bool) (c : ContainerStatus) :
  main_step (reason, hasRunning) c =
  match container_reason c with
  | Some r => (r, hasRunning)
  | None => (reason, hasRunning || live c)
  end.
Proof.
  unfold live, container_reason, waiting_reason, terminated_reason, main_step.
  destruct (Waiting (State c)) as [w|]; [destruct (String.eqb (WaitingReason w) "")|];
    cbn [negb]; try reflexivity;
    (destruct (Terminated (State c)) as [t|];
     [ destruct (negb (String.eqb (TerminatedReason t) "")); [reflexivity|];
       destruct (negb (Signal t =? 0)); reflexivity
     | destruct (Ready c && bool_decide (is_Some (Running (State c))));
       [ now rewrite orb_true_r | now rewrite orb_false_r ] ]).
Qed.

(** The reverse scan with overwriting leaves the status of the first-declared
    container that exposes one, and remembers whether some container is live. *)
Lemma main_loop_first_reason (statuses : list ContainerStatus) (reason : string) :
  main_loop statuses reason =
  (default reason (first_reason statuses), existsb live statuses).
Proof.
  unfold main_loop. rewrite <- fold_left_rev_right, rev_involutive.
  induction statuses as [|c rest IH]; [reflexivity|].
  cbn [fold_right first_reason existsb]. rewrite IH, main_step_reason.
  destruct (container_reason c) as [r|] eqn:Hc; cbn [default].
  - f_equal. unfold live. now rewrite Hc.
  - f_equal. apply orb_comm.
Qed.

Lemma init_loop_succeeded (total i : nat) (done rest : list ContainerStatus) (reason : string) :
  forallb init_succeeded done = true ->
  init_loop total i (done ++ rest) reason = init_loop total (i + length done) rest reason.
Proof.
  revert i. induction done as [|c done IH]; intros i Hd.
  - cbn. now rewrite Nat.add_0_r.
  - cbn [forallb] in Hd. apply andb_prop in Hd as [Hc Hd].
    unfold init_succeeded in Hc. cbn [app init_loop length].
    destruct (Terminated (State c)) as [t|]; [|discriminate].
    rewrite Hc. rewrite IH by assumption. f_equal. lia.
Qed.

Lemma init_loop_all_succeeded (total i : nat) (statuses : list ContainerStatus) (reason : string) :
  forallb init_succeeded statuses = true ->
  init_loop total i statuses reason = (reason, false).
Proof.
  intros Hd. rewrite <- (app_nil_r statuses).
  now rewrite init_loop_succeeded.
Qed.

(** The classifier once initialization is complete and the pod is not being
    deleted. *)
Lemma GetPodStatus_initialized `{NodePkg} (pod : Pod) :
  forallb init_succeeded (InitContainerStatuses (Status pod)) = true ->
  DeletionTimestamp pod = None ->
  GetPodStatus pod =
  let reason := default (pod_level_reason pod) (first_reason (ContainerStatuses (Status pod))) in
  if String.eqb reason "Completed" && existsb live (ContainerStatuses (Status pod))
  then "Running" else reason.
Proof.
  intros Hinit Hdel. unfold GetPodStatus.
  rewrite init_loop_all_succeeded by assumption.
  rewrite Hdel, main_loop_first_reason. reflexivity.
Qed.

Lemma first_reason_app (before : list ContainerStatus) (rest : list ContainerStatus) :
  Forall (fun c => container_reason c = None) before ->
  first_reason (before ++ rest) = first_reason rest.
Proof.
  induction 1 as [|c before Hc _ IH]; [reflexivity|].
  cbn [app first_reason]. now rewrite Hc.
Qed.

Lemma waiting_container_reason (c : ContainerStatus) (w : ContainerStateWaiting) :
  Waiting (State c) = Some w -> WaitingReason w <> "" ->
  container_reason c = Some (WaitingReason w).
Proof.
  intros Hw Hne. unfold container_reason, waiting_reason. rewrite Hw.
  destruct (String.eqb_spec (WaitingReason w) ""); [contradiction|reflexivity].
Qed.

(** C1, as the code has it. For a pod that is past initialization and has no
    deletion timestamp, if the last-declared main container is Waiting with
    reason ImagePullBackOff and no earlier-declared main container exposes a
    status of its own, [GetPodStatus] returns "ImagePullBackOff". *)
Theorem last_container_image_pull_back_off `{NodePkg}
    (pod : Pod) (earlier : list ContainerStatus) (last : ContainerStatus)
    (w : ContainerStateWaiting) :
  forallb init_succeeded (InitContainerStatuses (Status pod)) = true ->
  DeletionTimestamp pod = None ->
  ContainerStatuses (Status pod) = earlier ++ [last] ->
  Waiting (State last) = Some w ->
  WaitingReason w = "ImagePullBackOff" ->
  Forall (fun c => container_reason c = None) earlier ->
  GetPodStatus pod = "ImagePullBackOff".
Proof.
  intros Hinit Hdel Hsts Hw Hr Hquiet.
  rewrite GetPodStatus_initialized by assumption. cbn zeta.
  rewrite Hsts, first_reason_app by assumption. cbn [first_reason].
  rewrite (waiting_container_reason last w Hw) by (rewrite Hr; discriminate).
  rewrite Hr. reflexivity.
Qed.

Lemma last_container_image_pull_back_off_witness :
  GetPodStatus
    (snapshot "web" 10 None ["app:v1"; "proxy:v1"] [] "Pending" ""
       [] [running true; waiting "ImagePullBackOff"]) = "ImagePullBackOff".
Proof.
  apply (last_container_image_pull_back_off _ [running true]
           (waiting "ImagePullBackOff") {| WaitingReason := "ImagePullBackOff" |});
    try reflexivity.
  repeat constructor.
Defined.

(** C1 fails as stated: with an earlier-declared container waiting for another
    reason, that earlier container's reason is what is returned. *)
Lemma last_container_image_pull_back_off_counterexample :
  forallb init_succeeded (InitContainerStatuses (Status pod_two_waiting)) = true /\
  DeletionTimestamp pod_two_waiting = None /\
  last (ContainerStatuses (Status pod_two_waiting))
    = Some (waiting "ImagePullBackOff") /\
  GetPodStatus pod_two_waiting = "CrashLoopBackOff" /\
  GetPodStatus pod_two_waiting <> "ImagePullBackOff".
Proof. repeat split; try reflexivity. discriminate. Qed.

(** C2, as the code has it. For a pod whose init containers have all
    terminated with exit code 0 and that has no deletion timestamp, if some
    main container exposes a status (any number of later-declared ones may do
    so as well), [GetPodStatus] returns the status of the first-declared such
    container, except that "Completed" becomes "Running" when some container
    is live. *)
Theorem first_declared_container_wins `{NodePkg}
    (pod : Pod) (before after : list ContainerStatus) (c : ContainerStatus)
    (r : string) :
  forallb init_succeeded (InitContainerStatuses (Status pod)) = true ->
  DeletionTimestamp pod = None ->
  ContainerStatuses (Status pod) = before ++ c :: after ->
  Forall (fun c' => container_reason c' = None) before ->
  container_reason c = Some r ->
  GetPodStatus pod =
  if String.eqb r "Completed" && existsb live (before ++ after) then "Running" else r.
Proof.
  intros Hinit Hdel Hsts Hquiet Hc.
  rewrite GetPodStatus_initialized by assumption. cbn zeta.
  rewrite Hsts, first_reason_app by assumption. cbn [first_reason].
  rewrite Hc. cbn [default].
  rewrite !existsb_app. cbn [existsb].
  unfold live at 2. rewrite Hc. reflexivity.
Qed.

Lemma first_declared_container_wins_witness :
  GetPodStatus pod_two_waiting = "CrashLoopBackOff".
Proof.
  apply (first_declared_container_wins pod_two_waiting []
           [waiting "ImagePullBackOff"] (waiting "CrashLoopBackOff") "CrashLoopBackOff");
    try reflexivity.
  constructor.
Defined.

(** C2 fails as stated in two ways: a running init container is neither
    failing nor waiting, yet keeps the status at "Init:0/1"; and a first
    exposed status "Completed" is replaced by "Running" next to a live
    container. *)
Lemma first_declared_container_wins_counterexample :
  (Forall (fun c => Waiting (State c) = None /\ Terminated (State c) = None)
          (InitContainerStatuses (Status pod_init_running)) /\
   DeletionTimestamp pod_init_running = None /\
   ContainerStatuses (Status pod_init_running)
     = [waiting "PodInitializing"; waiting "PodInitializing"] /\
   container_reason (waiting "PodInitializing") = Some "PodInitializing" /\
   GetPodStatus pod_init_running = "Init:0/1") /\
  (InitContainerStatuses (Status pod_completed_sidecar) = [] /\
   DeletionTimestamp pod_completed_sidecar = None /\
   ContainerStatuses (Status pod_completed_sidecar)
     = [terminated 0 0 "Completed"; waiting "CrashLoopBackOff"; running true] /\
   container_reason (terminated 0 0 "Completed") = Some "Completed" /\
   container_reason (waiting "CrashLoopBackOff") = Some "CrashLoopBackOff" /\
   GetPodStatus pod_completed_sidecar = "Running").
Proof. repeat split; try reflexivity. repeat constructor. Qed.

(** C8, as the code has it. For a pod with no deletion timestamp: with no
    init container statuses and exactly one main container whose state is
    Running with ready=true, [GetPodStatus] returns "Running" when the
    pod-level reason (the status reason if non-empty, else the phase) is
    "Running" or "Completed"; and whenever initialization is complete, the
    status left by the container scan is "Completed" and some container is
    live, the result is "Running". *)
Theorem running_container_reports_running `{NodePkg} (pod : Pod) :
  DeletionTimestamp pod = None ->
  (forall (c : ContainerStatus) (run : ContainerStateRunning),
     InitContainerStatuses (Status pod) = [] ->
     ContainerStatuses (Status pod) = [c] ->
     State c = {| Waiting := None; Running := Some run; Terminated := None |} ->
     Ready c = true ->
     pod_level_reason pod = "Running" \/ pod_level_reason pod = "Completed" ->
     GetPodStatus pod = "Running") /\
  (forallb init_succeeded (InitContainerStatuses (Status pod)) = true ->
   default (pod_level_reason pod) (first_reason (ContainerStatuses (Status pod)))
     = "Completed" ->
   existsb live (ContainerStatuses (Status pod)) = true ->
   GetPodStatus pod = "Running").
Proof.
  intros Hdel. split.
  - intros c run Hinit Hsts Hst Hready Hlevel.
    rewrite GetPodStatus_initialized by (rewrite ?Hinit; auto). cbn zeta.
    rewrite Hsts. cbn [first_reason existsb].
    unfold live, container_reason, waiting_reason, terminated_reason.
    rewrite Hst, Hready. cbn.
    destruct Hlevel as [-> | ->]; reflexivity.
  - intros Hinit Hcompleted Hlive.
    rewrite GetPodStatus_initialized by assumption. cbn zeta.
    now rewrite Hcompleted, Hlive.
Qed.

Lemma running_container_reports_running_witness :
  GetPodStatus pod_running = "Running" /\ GetPodStatus pod_job_sidecar = "Running".
Proof.
  split.
  - apply (proj1 (running_container_reports_running pod_running eq_refl)
             (running true) {| StartedAt := 0 |}); try reflexivity.
    left; reflexivity.
  - apply (proj2 (running_container_reports_running pod_job_sidecar eq_refl));
      reflexivity.
Defined.

(** C8 fails as stated: the single running, ready container leaves the
    pod-level reason untouched, whatever it is. *)
Lemma running_container_reports_running_counterexample :
  InitContainers (Spec pod_pending_running) = [] /\
  InitContainerStatuses (Status pod_pending_running) = [] /\
  ContainerStatuses (Status pod_pending_running) = [running true] /\
  DeletionTimestamp pod_pending_running = None /\
  GetPodStatus pod_pending_running = "Pending" /\
  GetPodStatus pod_pending_running <> "Running".
Proof. repeat split; try reflexivity. discriminate. Qed.

(** C9, as the code has it. If the first init container that has not
    terminated with exit code 0 is Terminated with a non-zero exit code,
    signal 0 and an empty reason, and the pod has no deletion timestamp,
    [GetPodStatus] returns "Init:ExitCode:<code>". *)
Theorem init_exit_code `{NodePkg}
    (pod : Pod) (done rest : list ContainerStatus) (c : ContainerStatus)
    (t : ContainerStateTerminated) :
  InitContainerStatuses (Status pod) = done ++ c :: rest ->
  forallb init_succeeded done = true ->
  Terminated (State c) = Some t ->
  ExitCode t <> 0 ->
  Signal t = 0 ->
  TerminatedReason t = "" ->
  DeletionTimestamp pod = None ->
  GetPodStatus pod = "Init:ExitCode:" +:+ fmt_d (ExitCode t).
Proof.
  intros Hsts Hdone Ht Hcode Hsig Hreason Hdel. unfold GetPodStatus.
  rewrite Hsts, init_loop_succeeded by assumption.
  cbn [init_loop]. rewrite Ht, Hsig, Hreason, Hdel.
  apply Z.eqb_neq in Hcode. rewrite Hcode. reflexivity.
Qed.

Lemma init_exit_code_witness :
  GetPodStatus pod_init_failed = "Init:ExitCode:3".
Proof.
  apply (init_exit_code pod_init_failed [terminated 0 0 "Completed"] []
           (terminated 3 0 "")
           {| ExitCode := 3; Signal := 0; TerminatedReason := "" |});
    try reflexivity.
  discriminate.
Defined.

(** C9 fails as stated in three ways: the deletion override, a non-zero
    signal, and an earlier init container that has not succeeded each take
    precedence over the exit code. *)
Lemma init_exit_code_counterexample :
  (InitContainerStatuses (Status pod_init_failed_deleted) = [terminated 3 0 ""] /\
   GetPodStatus pod_init_failed_deleted = "Terminating") /\
  (InitContainerStatuses (Status pod_init_killed) = [terminated 137 9 ""] /\
   DeletionTimestamp pod_init_killed = None /\
   GetPodStatus pod_init_killed = "Init:Signal:9") /\
  (InitContainerStatuses (Status pod_init_second_failed)
     = [waiting "ImagePullBackOff"; terminated 3 0 ""] /\
   DeletionTimestamp pod_init_second_failed = None /\
   GetPodStatus pod_init_second_failed = "Init:ImagePullBackOff").
Proof. repeat split; reflexivity. Qed.

(** C10. Whatever the phase, the init containers and the main containers
    say, a pod with a deletion timestamp is reported as "Unknown" when its
    status reason is the node-unreachable reason, and as "Terminating"
    otherwise. *)
Theorem deletion_overrides `{NodePkg} (pod : Pod) :
  DeletionTimestamp pod <> None ->
  (Reason (Status pod) = NodeUnreachablePodReason -> GetPodStatus pod = "Unknown") /\
  (Reason (Status pod) <> NodeUnreachablePodReason -> GetPodStatus pod = "Terminating").
Proof.
  intros Hdel. unfold GetPodStatus.
  destruct (init_loop _ _ _ _) as [reason initializing].
  destruct (DeletionTimestamp pod); [|contradiction].
  destruct (String.eqb_spec (Reason (Status pod)) NodeUnreachablePodReason);
    split; intros; congruence.
Qed.

Lemma deletion_overrides_witness :
  GetPodStatus pod_deleted_node_lost = "Unknown" /\
  GetPodStatus pod_deleted = "Terminating".
Proof.
  split.
  - apply (proj1 (deletion_overrides pod_deleted_node_lost ltac:(discriminate))).
    reflexivity.
  - apply (proj2 (deletion_overrides pod_deleted ltac:(discriminate))).
    discriminate.
Defined.

(** * Properties of the discovery loops *)

Lemma wrap64_small (z : Z) : - 2 ^ 63 <= z < 2 ^ 63 -> wrap64 z = z.
Proof.
  intros Hz. unfold wrap64.
  change (2 ^ 63) with 9223372036854775808 in *.
  change (2 ^ 64) with 18446744073709551616.
  rewrite Z.mod_small; lia.
Qed.

Lemma wrap64_range (z : Z) : - 2 ^ 63 <= wrap64 z < 2 ^ 63.
Proof.
  unfold wrap64.
  change (2 ^ 63) with 9223372036854775808.
  change (2 ^ 64) with 18446744073709551616.
  pose proof (Z.mod_pos_bound (z + 9223372036854775808) 18446744073709551616).
  lia.
Qed.

Lemma waitingInterval_second : waitingInterval = Second.
Proof. reflexivity. Qed.

Lemma two_intervals : dur_mul waitingInterval 2 = 2 * Second.
Proof. reflexivity. Qed.

Lemma budget_decrement (m : Duration) :
  - 2 ^ 63 + 2 * Second <= m < 2 ^ 63 ->
  dur_sub m (dur_mul waitingInterval 2) = m - 2 * Second.
Proof.
  intros Hm. rewrite two_intervals. unfold dur_sub.
  apply wrap64_small. unfold Second in *. lia.
Qed.

Lemma poll_effects (client : Client) (namespace labelSelector : string) (s : Sys) :
  list_pods client namespace labelSelector (sleep waitingInterval s)
  = (PodsList client (calls s) namespace labelSelector,
     after_poll namespace labelSelector s).
Proof.
  unfold list_pods, sleep, after_poll. cbn [calls trace].
  now rewrite waitingInterval_second, <- app_assoc.
Qed.

Lemma iteration_effects (namespace labelSelector : string) (s : Sys) :
  sleep waitingInterval (after_poll namespace labelSelector s)
  = after_iteration namespace labelSelector s.
Proof.
  unfold sleep, after_poll, after_iteration. cbn [calls trace].
  now rewrite waitingInterval_second, <- app_assoc.
Qed.

(** The loop body of [GetNewestRunningPod], with its effects spelled out. *)
Lemma newest_iteration_eq `{NodePkg} (clock : Clock) (client : Client)
    (labelSelector : string) (imageSelector : list string) (namespace : string)
    (st : NewestLoop) :
  newest_iteration clock client labelSelector imageSelector namespace st =
  let polled := after_poll namespace labelSelector (nl_sys st) in
  let next :=
    Continue {| nl_maxWaiting := dur_sub (nl_maxWaiting st) (dur_mul waitingInterval 2);
                nl_sys := after_iteration namespace labelSelector (nl_sys st) |} in
  match PodsList client (calls (nl_sys st)) namespace labelSelector with
  | ListErr msg => Return (Failed (ApiError msg), polled)
  | ListOk podList =>
    if (0 <? Size podList) && (0 <? length (Items podList))%nat then
      match select_loop imageSelector (Items podList) None with
      | Some selectedPod =>
        if String.eqb (GetPodStatus selectedPod) "Running"
        then Return (Returned selectedPod, polled)
        else if cannot_start (GetPodStatus selectedPod)
        then Return (Failed (ErrSelectedCannotStart (GetPodStatus selectedPod)), polled)
        else next
      | None =>
        if Minute <? Since clock (calls (nl_sys st))
        then Return (Failed (ErrCouldntFind labelSelector namespace), polled)
        else next
      end
    else next
  end.
Proof.
  unfold newest_iteration. rewrite poll_effects, iteration_effects. reflexivity.
Qed.

(** The loop body of [GetRunningPodsWithImage], with its effects spelled out. *)
Lemma images_iteration_eq `{NodePkg} (client : Client) (imageNames : list string)
    (namespace : string) (st : ImagesLoop) :
  images_iteration client imageNames namespace st =
  let polled := after_poll namespace "" (il_sys st) in
  let next :=
    Continue {| il_maxWaiting := dur_sub (il_maxWaiting st) (dur_mul waitingInterval 2);
                il_minWait := dur_sub (il_minWait st) (dur_mul waitingInterval 2);
                il_sys := after_iteration namespace "" (il_sys st) |} in
  match PodsList client (calls (il_sys st)) namespace "" with
  | ListErr msg => Return (Failed (ApiError msg), polled)
  | ListOk podList =>
    if (0 <? length (Items podList))%nat then
      match pod_loop imageNames (Items podList) [] with
      | PodLoopCritical name status => Return (Failed (ErrPodCannotStart name status), polled)
      | PodLoopDone pods wait =>
        if negb wait && ((0 <? length pods)%nat || (il_minWait st <=? 0))
        then Return (Returned pods, polled)
        else next
      end
    else next
  end.
Proof.
  unfold images_iteration. rewrite poll_effects, iteration_effects. reflexivity.
Qed.

(** ** Selection of the newest candidate *)

Lemma select_loop_cons (imageSelector : list string) (p : Pod) (rest : list Pod)
    (selectedPod : option Pod) :
  select_loop imageSelector (p :: rest) selectedPod =
  select_loop imageSelector rest
    (if match selectedPod with
        | None => true
        | Some sel => CreationTimestamp sel <? CreationTimestamp p
        end && passes imageSelector p
     then Some p else selectedPod).
Proof.
  cbn [select_loop]. unfold passes. f_equal.
  destruct selectedPod as [sel|];
    [destruct (CreationTimestamp sel <? CreationTimestamp p)|];
    cbn [andb]; try reflexivity;
    destruct (0 <? length imageSelector)%nat; cbn [negb orb]; reflexivity.
Qed.

(** What the selection loop computes: no candidate when no pod passes the
    image filter, otherwise a passing pod that no passing pod is newer than. *)
Lemma select_loop_spec (imageSelector : list string) (items : list Pod) :
  forall selectedPod : option Pod,
  match select_loop imageSelector items selectedPod with
  | None => selectedPod = None /\ Forall (fun p => passes imageSelector p = false) items
  | Some p =>
    (selectedPod = Some p \/ (In p items /\ passes imageSelector p = true)) /\
    (forall q, selectedPod = Some q -> CreationTimestamp q <= CreationTimestamp p) /\
    Forall (fun q => passes imageSelector q = true ->
                     CreationTimestamp q <= CreationTimestamp p) items
  end.
Proof.
  induction items as [|p rest IH]; intros sel0.
  - cbn [select_loop]. destruct sel0 as [p|].
    + split; [now left|]. split; [|constructor]. intros q [= ->]. lia.
    + split; [reflexivity|constructor].
  - rewrite select_loop_cons.
    match goal with |- context [select_loop _ rest ?x] => set (sel1 := x) end.
    specialize (IH sel1). destruct (select_loop imageSelector rest sel1) as [r|].
    + destruct IH as (Hsrc & Hsel & Hall).
      assert (Hcases :
        (sel1 = Some p /\ passes imageSelector p = true) \/
        (sel1 = sel0 /\
         (passes imageSelector p = true ->
          exists q, sel0 = Some q /\ CreationTimestamp p <= CreationTimestamp q))).
      { subst sel1. destruct (passes imageSelector p).
        - destruct sel0 as [q|]; cbn [andb].
          + destruct (Z.ltb_spec (CreationTimestamp q) (CreationTimestamp p)).
            * now left.
            * right. split; [reflexivity|]. intros _. exists q. split; [reflexivity|lia].
          + now left.
        - right. rewrite andb_false_r. split; [reflexivity|discriminate]. }
      split; [|split].
      * destruct Hsrc as [Hsrc | [Hin Hp]]; [|right; split; [now right|assumption]].
        destruct Hcases as [[Hp1 Hpass] | [Heq _]].
        -- right. rewrite Hp1 in Hsrc. injection Hsrc as <-. split; [now left|assumption].
        -- left. congruence.
      * intros q Hq. destruct Hcases as [[Hp1 Hpass] | [Heq _]].
        -- specialize (Hsel p Hp1). subst sel1 sel0.
           destruct (Z.ltb_spec (CreationTimestamp q) (CreationTimestamp p));
             [lia|]. cbn [andb] in Hp1. congruence.
        -- apply Hsel. congruence.
      * constructor; [|assumption]. intros Hpass.
        destruct Hcases as [[Hp1 _] | [Heq Hold]].
        -- now apply Hsel.
        -- destruct (Hold Hpass) as (q & Hq & Hle).
           specialize (Hsel q ltac:(congruence)). lia.
    + destruct IH as (Hnone & Hall). subst sel1.
      destruct sel0 as [q|].
      * destruct (_ && _); discriminate.
      * split; [reflexivity|]. constructor; [|assumption].
        cbn [andb] in Hnone. destruct (passes imageSelector p); [discriminate|reflexivity].
Qed.


Lemma select_loop_none (imageSelector : list string) (items : list Pod) :
  select_loop imageSelector items None = None ->
  Forall (fun p => passes imageSelector p = false) items.
Proof.
  intros Hsel. pose proof (select_loop_spec imageSelector items None) as Hspec.
  rewrite Hsel in Hspec. apply Hspec.
Qed.


Lemma passes_nonempty (imageSelector : list string) (pod : Pod) :
  imageSelector <> [] ->
  passes imageSelector pod = matches_image imageSelector (Containers (Spec pod)).
Proof.
  intros Hne. unfold passes. destruct imageSelector; [contradiction|reflexivity].
Qed.

Lemma cannot_start_spec (podStatus : string) :
  cannot_start podStatus = true <-> In podStatus critical_statuses.
Proof.
  unfold cannot_start, critical_statuses. cbn [In].
  rewrite !orb_true_iff, !String.eqb_eq. intuition congruence.
Qed.

(** ** Where the results of GetNewestRunningPod come from *)

Lemma newest_iteration_return `{NodePkg} (clock : Clock) (client : Client)
    (labelSelector : string) (imageSelector : list string) (namespace : string)
    (st : NewestLoop) (r : Outcome Pod) (s : Sys) :
  newest_iteration clock client labelSelector imageSelector namespace st = Return (r, s) ->
  s = after_poll namespace labelSelector (nl_sys st) /\
  returned_at clock client labelSelector imageSelector namespace (calls (nl_sys st)) r.
Proof.
  rewrite newest_iteration_eq. cbn zeta. unfold returned_at.
  destruct (PodsList client (calls (nl_sys st)) namespace labelSelector) as [podList|msg].
  - destruct (Z.ltb_spec 0 (Size podList)); cbn [andb]; [|discriminate].
    destruct (Items podList) as [|p items] eqn:Hitems; [discriminate|].
    cbn [length Nat.ltb Nat.leb].
    destruct (select_loop imageSelector (p :: items) None) as [pod|].
    + destruct (String.eqb_spec (GetPodStatus pod) "Running") as [Hrun|Hrun].
      * intros [= <- <-].
        split; [reflexivity|]. split; [assumption|]. split; [discriminate|].
        left. split; [assumption|reflexivity].
      * destruct (cannot_start (GetPodStatus pod)) eqn:Hcrit; [|discriminate].
        intros [= <- <-].
        split; [reflexivity|]. split; [assumption|]. split; [discriminate|].
        right. split; [now apply cannot_start_spec|reflexivity].
    + destruct (Z.ltb_spec Minute (Since clock (calls (nl_sys st)))); [|discriminate].
      intros [= <- <-].
      split; [reflexivity|]. split; [assumption|]. split; [discriminate|].
      split; [assumption|reflexivity].
  - intros [= <- <-]. split; reflexivity.
Qed.

Lemma newest_iteration_continue `{NodePkg} (clock : Clock) (client : Client)
    (labelSelector : string) (imageSelector : list string) (namespace : string)
    (st st' : NewestLoop) :
  newest_iteration clock client labelSelector imageSelector namespace st = Continue st' ->
  st' = {| nl_maxWaiting := dur_sub (nl_maxWaiting st) (dur_mul waitingInterval 2);
           nl_sys := after_iteration namespace labelSelector (nl_sys st) |}.
Proof.
  rewrite newest_iteration_eq. cbn zeta.
  repeat match goal with
         | |- context [match ?x with _ => _ end] => destruct x
         end; congruence.
Qed.

(** Every result other than the final error is produced by some pass, from
    what that pass's List call answered. *)
Lemma newest_loop_result `{NodePkg} (clock : Clock) (client : Client)
    (labelSelector : string) (imageSelector : list string) (namespace : string)
    (fuel : nat) :
  forall (st : NewestLoop) (r : Outcome Pod) (s : Sys),
  newest_loop fuel clock client labelSelector imageSelector namespace st = Some (r, s) ->
  r = Failed (ErrNoPodFound labelSelector namespace) \/
  exists n, (calls (nl_sys st) <= n)%nat /\ calls s = S n /\
            returned_at clock client labelSelector imageSelector namespace n r.
Proof.
  induction fuel as [|fuel IH]; intros st r s; [discriminate|].
  cbn [newest_loop].
  destruct (newest_iteration clock client labelSelector imageSelector namespace st)
    as [st'|[r' s']] eqn:Hit.
  - apply newest_iteration_continue in Hit.
    destruct (0 <? nl_maxWaiting st').
    + intros Hloop. apply IH in Hloop as [Hr | (n & Hn & Hs & Hret)]; [now left|].
      right. exists n. subst st'. cbn [nl_sys after_iteration calls] in Hn.
      repeat split; auto. lia.
    + intros [= <- <-]. now left.
  - intros [= <- <-]. apply newest_iteration_return in Hit as [-> Hret].
    right. exists (calls (nl_sys st)). repeat split; auto.
Qed.



Lemma newest_loop_return `{NodePkg} (clock : Clock) (client : Client)
    (labelSelector : string) (imageSelector : list string) (namespace : string)
    (fuel : nat) (st : NewestLoop) (r : Outcome Pod * Sys) :
  newest_iteration clock client labelSelector imageSelector namespace st = Return r ->
  newest_loop (S fuel) clock client labelSelector imageSelector namespace st = Some r.
Proof. intros Hit. cbn [newest_loop]. now rewrite Hit. Qed.

(** C7. In a pass of [GetNewestRunningPod] that selected [pod]: status
    "Running" returns the pod; a status of the critical list returns the
    "cannot start" error in this very pass, the List call of the pass being
    the last effect; any other status falls through to the second sleep and
    the budget decrement. In particular, when the first List call answers
    with a single pod that has a container with image "app:v1" and status
    "CrashLoopBackOff", the call with image selector ["app:v1"] fails with
    that error after one List call. *)
Theorem newest_candidate_status `{NodePkg} (clock : Clock) (client : Client)
    (labelSelector : string) (namespace : string) :
  (forall (imageSelector : list string) (st : NewestLoop) (podList : PodList) (pod : Pod),
     PodsList client (calls (nl_sys st)) namespace labelSelector = ListOk podList ->
     0 < Size podList ->
     select_loop imageSelector (Items podList) None = Some pod ->
     (GetPodStatus pod = "Running" ->
      newest_iteration clock client labelSelector imageSelector namespace st
        = Return (Returned pod, after_poll namespace labelSelector (nl_sys st))) /\
     (In (GetPodStatus pod) critical_statuses ->
      forall fuel,
        newest_loop (S fuel) clock client labelSelector imageSelector namespace st
        = Some (Failed (ErrSelectedCannotStart (GetPodStatus pod)),
                after_poll namespace labelSelector (nl_sys st))) /\
     (GetPodStatus pod <> "Running" ->
      ~ In (GetPodStatus pod) critical_statuses ->
      newest_iteration clock client labelSelector imageSelector namespace st
        = Continue {| nl_maxWaiting := dur_sub (nl_maxWaiting st) (dur_mul waitingInterval 2);
                      nl_sys := after_iteration namespace labelSelector (nl_sys st) |})) /\
  (forall (fuel : nat) (maxWaiting : Duration) (size : Z) (pod : Pod),
     PodsList client 0 (effective_namespace client namespace) labelSelector
       = ListOk {| Size := size; Items := [pod] |} ->
     0 < size ->
     In {| Image := "app:v1" |} (Containers (Spec pod)) ->
     GetPodStatus pod = "CrashLoopBackOff" ->
     GetNewestRunningPod (S fuel) clock client labelSelector ["app:v1"] namespace maxWaiting
       = Some (Failed (ErrSelectedCannotStart "CrashLoopBackOff"),
               {| calls := 1;
                  trace := [EvSleep Second;
                            EvList (effective_namespace client namespace) labelSelector] |})).
Proof.
  assert (Hcritical : forall imageSelector ns st podList pod fuel,
    PodsList client (calls (nl_sys st)) ns labelSelector = ListOk podList ->
    0 < Size podList ->
    select_loop imageSelector (Items podList) None = Some pod ->
    In (GetPodStatus pod) critical_statuses ->
    newest_loop (S fuel) clock client labelSelector imageSelector ns st
    = Some (Failed (ErrSelectedCannotStart (GetPodStatus pod)),
            after_poll ns labelSelector (nl_sys st))).
  { intros imageSelector ns st podList pod fuel Hlist Hsize Hsel Hcrit.
    apply newest_loop_return. rewrite newest_iteration_eq. cbn zeta.
    rewrite Hlist, Hsel. apply Z.ltb_lt in Hsize. rewrite Hsize.
    assert (Hitems : (0 <? length (Items podList))%nat = true).
    { destruct (Items podList); [discriminate Hsel|reflexivity]. }
    rewrite Hitems. cbn [andb].
    destruct (String.eqb_spec (GetPodStatus pod) "Running") as [Hrun|_].
    - rewrite Hrun in Hcrit. cbn in Hcrit. intuition discriminate.
    - apply cannot_start_spec in Hcrit. now rewrite Hcrit. }
  split.
  - intros imageSelector st podList pod Hlist Hsize Hsel.
    assert (Hitems : (0 <? length (Items podList))%nat = true).
    { destruct (Items podList); [discriminate Hsel|reflexivity]. }
    pose proof Hsize as Hsize'. apply Z.ltb_lt in Hsize'.
    split; [|split].
    + intros Hrun. rewrite newest_iteration_eq. cbn zeta.
      now rewrite Hlist, Hsel, Hsize', Hitems, Hrun.
    + intros Hcrit fuel. now apply (Hcritical imageSelector namespace st podList).
    + intros Hrun Hcrit. rewrite newest_iteration_eq. cbn zeta.
      rewrite Hlist, Hsel, Hsize', Hitems. cbn [andb].
      apply String.eqb_neq in Hrun. rewrite Hrun.
      destruct (cannot_start (GetPodStatus pod)) eqn:Hc; [|reflexivity].
      apply cannot_start_spec in Hc. contradiction.
  - intros fuel maxWaiting size pod Hlist Hsize Himage Hstatus.
    unfold GetNewestRunningPod.
    rewrite (Hcritical ["app:v1"] (effective_namespace client namespace)
               {| nl_maxWaiting := maxWaiting; nl_sys := sys0 |}
               {| Size := size; Items := [pod] |} pod fuel Hlist Hsize).
    + now rewrite Hstatus.
    + cbn [Items]. rewrite select_loop_cons. cbn [select_loop andb].
      replace (passes ["app:v1"] pod) with true; [reflexivity|].
      symmetry. unfold passes, matches_image. cbn [length Nat.ltb Nat.leb negb orb].
      apply existsb_exists. exists {| Image := "app:v1" |}. split; [assumption|reflexivity].
    + rewrite Hstatus. cbn. tauto.
Qed.

Lemma newest_candidate_status_witness :
  GetNewestRunningPod 1 exact_clock (steady_cluster [pod_crash_loop]) "app=web"
    ["app:v1"] "" (120 * Second)
  = Some (Failed (ErrSelectedCannotStart "CrashLoopBackOff"),
          {| calls := 1; trace := [EvSleep Second; EvList "default" "app=web"] |}) /\
  newest_iteration exact_clock (steady_cluster [pod_old]) "app=web" [] "default"
    {| nl_maxWaiting := 0; nl_sys := sys0 |}
  = Return (Returned pod_old, after_poll "default" "app=web" sys0).
Proof.
  split.
  - apply (proj2 (newest_candidate_status exact_clock (steady_cluster [pod_crash_loop])
                    "app=web" "") 0%nat (120 * Second) 3 pod_crash_loop);
      try reflexivity.
    cbn. now left.
  - apply (proj1 (proj1 (newest_candidate_status exact_clock (steady_cluster [pod_old])
                    "app=web" "default") [] {| nl_maxWaiting := 0; nl_sys := sys0 |}
                    {| Size := 3; Items := [pod_old] |} pod_old
                    eq_refl eq_refl eq_refl)).
    reflexivity.
Defined.

(** ** The wait budget of GetRunningPodsWithImage *)

Lemma images_iteration_return `{NodePkg} (client : Client) (imageNames : list string)
    (namespace : string) (st : ImagesLoop) (r : Outcome (list Pod)) (s : Sys) :
  images_iteration client imageNames namespace st = Return (r, s) ->
  s = after_poll namespace "" (il_sys st) /\
  forall a b, r <> Failed (ErrWaitTimedOut a b).
Proof.
  rewrite images_iteration_eq. cbn zeta.
  repeat match goal with
         | |- context [match ?x with _ => _ end] => destruct x
         end; intros [= <- <-]; split; try reflexivity; discriminate.
Qed.

Lemma images_iteration_continue `{NodePkg} (client : Client) (imageNames : list string)
    (namespace : string) (st st' : ImagesLoop) :
  images_iteration client imageNames namespace st = Continue st' ->
  st' = {| il_maxWaiting := dur_sub (il_maxWaiting st) (dur_mul waitingInterval 2);
           il_minWait := dur_sub (il_minWait st) (dur_mul waitingInterval 2);
           il_sys := after_iteration namespace "" (il_sys st) |}.
Proof.
  rewrite images_iteration_eq. cbn zeta.
  repeat match goal with
         | |- context [match ?x with _ => _ end] => destruct x
         end; congruence.
Qed.

Lemma images_passes_step (m : Duration) :
  0 <= m -> images_passes m = S (images_passes (m - 2 * Second)).
Proof.
  intros Hm. unfold images_passes.
  destruct (Z.leb_spec 0 m); [|lia].
  destruct (Z.leb_spec 0 (m - 2 * Second)) as [Hge|Hlt].
  - replace (m / (2 * Second)) with ((m - 2 * Second) / (2 * Second) + 1).
    + assert (0 <= (m - 2 * Second) / (2 * Second))
        by (apply Z.div_pos; unfold Second in *; lia).
      lia.
    + rewrite <- Z.div_add by (unfold Second; lia). f_equal. lia.
  - rewrite Z.div_small by lia. reflexivity.
Qed.

Lemma images_passes_exhausted (m : Duration) : m < 0 -> images_passes m = 0%nat.
Proof. intros Hm. unfold images_passes. destruct (Z.leb_spec 0 m); [lia|reflexivity]. Qed.

(** A result of the loop is either the final timeout, after exactly
    [images_passes] passes, or was returned from within a pass; in both cases
    no more than [images_passes] List calls were made. *)
Lemma images_loop_result `{NodePkg} (client : Client) (imageNames : list string)
    (namespace : string) (fuel : nat) :
  forall (st : ImagesLoop) (r : Outcome (list Pod)) (s : Sys),
  il_maxWaiting st < 2 ^ 63 ->
  images_loop fuel client imageNames namespace st = Some (r, s) ->
  (calls s <= calls (il_sys st) + images_passes (il_maxWaiting st))%nat /\
  ((r = Failed (ErrWaitTimedOut imageNames namespace) /\
    calls s = (calls (il_sys st) + images_passes (il_maxWaiting st))%nat) \/
   (exists st0, images_iteration client imageNames namespace st0 = Return (r, s))).
Proof.
  induction fuel as [|fuel IH]; intros st r s Hmax; [discriminate|].
  cbn [images_loop]. destruct (Z.leb_spec 0 (il_maxWaiting st)) as [Hge|Hlt].
  - rewrite (images_passes_step _ Hge).
    destruct (images_iteration client imageNames namespace st) as [st'|[r' s']] eqn:Hit.
    + pose proof (images_iteration_continue _ _ _ _ _ Hit) as Hst'.
      rewrite budget_decrement in Hst'
        by (change (2 ^ 63) with 9223372036854775808 in *; unfold Second; lia).
      intros Hloop. apply IH in Hloop; [|subst st'; cbn; unfold Second; lia].
      subst st'. cbn [il_maxWaiting il_sys after_iteration calls] in Hloop.
      destruct Hloop as [Hle Hres]. split; [lia|].
      destruct Hres as [[-> Hcalls] | Hret]; [left; split; [reflexivity|lia]|now right].
    + intros [= <- <-]. pose proof (images_iteration_return _ _ _ _ _ _ Hit) as [-> _].
      cbn [after_poll calls]. split; [lia|]. right. now exists st.
  - intros [= <- <-]. rewrite images_passes_exhausted by assumption.
    split; [lia|]. left. split; [reflexivity|lia].
Qed.

Lemma images_loop_terminates `{NodePkg} (client : Client) (imageNames : list string)
    (namespace : string) (n : nat) :
  forall st : ImagesLoop,
  il_maxWaiting st < 2 ^ 63 ->
  (images_passes (il_maxWaiting st) <= n)%nat ->
  exists rs, images_loop (S n) client imageNames namespace st = Some rs.
Proof.
  induction n as [|n IH]; intros st Hmax Hn; cbn [images_loop];
    destruct (Z.leb_spec 0 (il_maxWaiting st)) as [Hge|Hlt]; eauto;
    rewrite (images_passes_step _ Hge) in Hn; [lia|].
  destruct (images_iteration client imageNames namespace st) as [st'|rs] eqn:Hit; eauto.
  pose proof (images_iteration_continue _ _ _ _ _ Hit) as Hst'.
  rewrite budget_decrement in Hst'
    by (change (2 ^ 63) with 9223372036854775808 in *; unfold Second; lia).
  apply IH; subst st'; cbn [il_maxWaiting]; [unfold Second; lia|lia].
Qed.

Lemma images_passes_bound (m : Duration) :
  0 <= m -> Z.of_nat (images_passes m) = m / (2 * Second) + 1.
Proof.
  intros Hm. unfold images_passes. destruct (Z.leb_spec 0 m); [|lia].
  assert (0 <= m / (2 * Second)) by (apply Z.div_pos; unfold Second; lia).
  lia.
Qed.

Lemma images_iteration_waiting `{NodePkg} (client : Client) (imageNames : list string)
    (namespace : string) (st : ImagesLoop) :
  keeps_waiting imageNames (il_minWait st)
    (PodsList client (calls (il_sys st)) namespace "") ->
  images_iteration client imageNames namespace st
  = Continue {| il_maxWaiting := dur_sub (il_maxWaiting st) (dur_mul waitingInterval 2);
                il_minWait := dur_sub (il_minWait st) (dur_mul waitingInterval 2);
                il_sys := after_iteration namespace "" (il_sys st) |}.
Proof.
  rewrite images_iteration_eq. cbn zeta. unfold keeps_waiting.
  destruct (PodsList client (calls (il_sys st)) namespace "") as [podList|msg];
    [|contradiction].
  intros [Hempty | Hscan]; [now rewrite Hempty|].
  destruct (0 <? length (Items podList))%nat; [|reflexivity].
  destruct (pod_loop imageNames (Items podList) []) as [name status|pods wait];
    [contradiction|].
  destruct Hscan as [-> | [-> Hmin]]; [reflexivity|].
  apply Z.leb_gt in Hmin. rewrite Hmin. now destruct wait.
Qed.

Lemma images_iteration_continue_waiting `{NodePkg} (client : Client)
    (imageNames : list string) (namespace : string) (st st' : ImagesLoop) :
  images_iteration client imageNames namespace st = Continue st' ->
  keeps_waiting imageNames (il_minWait st)
    (PodsList client (calls (il_sys st)) namespace "").
Proof.
  rewrite images_iteration_eq. cbn zeta. unfold keeps_waiting.
  destruct (PodsList client (calls (il_sys st)) namespace "") as [podList|msg];
    [|discriminate].
  destruct (Items podList) as [|p items] eqn:Hitems; [now left|].
  cbn [length Nat.ltb Nat.leb]. rewrite <- Hitems.
  destruct (pod_loop imageNames (Items podList) []) as [name status|pods wait];
    [discriminate|].
  destruct wait; [intros _; right; now left|].
  destruct pods as [|q pods]; [|discriminate].
  cbn [negb andb length Nat.ltb Nat.leb orb].
  destruct (Z.leb_spec (il_minWait st) 0); [discriminate|].
  intros _. right. right. split; [reflexivity|assumption].
Qed.

(** The outcome of one pass of [GetRunningPodsWithImage]. *)
Lemma images_pass `{NodePkg} (client : Client) (imageNames : list string)
    (namespace : string) (st : ImagesLoop) :
  0 <= il_maxWaiting st < 2 ^ 63 ->
  (exists r s,
     images_iteration client imageNames namespace st = Return (r, s) /\
     calls s = S (calls (il_sys st)) /\
     trace s = trace (il_sys st) ++ [EvSleep Second; EvList namespace ""]) \/
  (exists st',
     images_iteration client imageNames namespace st = Continue st' /\
     il_maxWaiting st' = il_maxWaiting st - 2 * Second /\
     calls (il_sys st') = S (calls (il_sys st)) /\
     trace (il_sys st')
     = trace (il_sys st) ++ [EvSleep Second; EvList namespace ""; EvSleep Second]).
Proof.
  intros Hrange.
  destruct (images_iteration client imageNames namespace st) as [st'|[r s]] eqn:Hit.
  - right. exists st'. split; [reflexivity|].
    apply images_iteration_continue in Hit. subst st'.
    cbn [il_maxWaiting il_sys after_iteration calls trace].
    rewrite budget_decrement
      by (change (2 ^ 63) with 9223372036854775808 in *; unfold Second; lia).
    auto.
  - left. exists r, s. split; [reflexivity|].
    apply images_iteration_return in Hit as [-> _]. cbn [after_poll calls trace]. auto.
Qed.

(** The outcome of one pass of [GetNewestRunningPod]. *)
Lemma newest_pass `{NodePkg} (clock : Clock) (client : Client)
    (labelSelector : string) (imageSelector : list string) (namespace : string)
    (st : NewestLoop) :
  0 <= nl_maxWaiting st < 2 ^ 63 ->
  (exists r s,
     newest_iteration clock client labelSelector imageSelector namespace st
       = Return (r, s) /\
     calls s = S (calls (nl_sys st)) /\
     trace s = trace (nl_sys st) ++ [EvSleep Second; EvList namespace labelSelector]) \/
  (exists st',
     newest_iteration clock client labelSelector imageSelector namespace st
       = Continue st' /\
     nl_maxWaiting st' = nl_maxWaiting st - 2 * Second /\
     calls (nl_sys st') = S (calls (nl_sys st)) /\
     trace (nl_sys st')
     = trace (nl_sys st)
         ++ [EvSleep Second; EvList namespace labelSelector; EvSleep Second]).
Proof.
  intros Hrange.
  destruct (newest_iteration clock client labelSelector imageSelector namespace st)
    as [st'|[r s]] eqn:Hit.
  - right. exists st'. split; [reflexivity|].
    apply newest_iteration_continue in Hit. subst st'.
    cbn [nl_maxWaiting nl_sys after_iteration calls trace].
    rewrite budget_decrement
      by (change (2 ^ 63) with 9223372036854775808 in *; unfold Second; lia).
    auto.
  - left. exists r, s. split; [reflexivity|].
    apply newest_iteration_return in Hit as [-> _]. cbn [after_poll calls trace]. auto.
Qed.

Lemma newest_iteration_no_pods `{NodePkg} (clock : Clock) (client : Client)
    (labelSelector : string) (imageSelector : list string) (namespace : string)
    (st : NewestLoop) (podList : PodList) :
  PodsList client (calls (nl_sys st)) namespace labelSelector = ListOk podList ->
  Items podList = [] ->
  newest_iteration clock client labelSelector imageSelector namespace st
  = Continue {| nl_maxWaiting := dur_sub (nl_maxWaiting st) (dur_mul waitingInterval 2);
                nl_sys := after_iteration namespace labelSelector (nl_sys st) |}.
Proof.
  intros Hlist Hitems. rewrite newest_iteration_eq. cbn zeta.
  now rewrite Hlist, Hitems, andb_false_r.
Qed.

Lemma images_loop_S `{NodePkg} (client : Client) (imageNames : list string)
    (namespace : string) (fuel : nat) (st : ImagesLoop) :
  images_loop (S fuel) client imageNames namespace st =
  if 0 <=? il_maxWaiting st then
    match images_iteration client imageNames namespace st with
    | Return r => Some r
    | Continue st' => images_loop fuel client imageNames namespace st'
    end
  else Some (Failed (ErrWaitTimedOut imageNames namespace), il_sys st).
Proof. reflexivity. Qed.

(** A run of the loop in which no pass resolves anything: it makes
    [images_passes] complete passes and ends with the timeout error. *)
Lemma images_loop_waiting `{NodePkg} (client : Client) (imageNames : list string)
    (namespace : string) (maxWaiting : Duration) (j : nat) :
  maxWaiting < 2 ^ 63 ->
  forall st : ImagesLoop,
  il_maxWaiting st = maxWaiting - 2 * Second * Z.of_nat (calls (il_sys st)) ->
  il_minWait st = 60 * Second - 2 * Second * Z.of_nat (calls (il_sys st)) ->
  images_passes (il_maxWaiting st) = j ->
  (forall n, (calls (il_sys st) <= n < calls (il_sys st) + j)%nat ->
             keeps_waiting imageNames (60 * Second - 2 * Second * Z.of_nat n)
               (PodsList client n namespace "")) ->
  images_loop (S j) client imageNames namespace st
  = Some (Failed (ErrWaitTimedOut imageNames namespace),
          {| calls := calls (il_sys st) + j;
             trace := trace (il_sys st) ++ passes_trace namespace "" j |}).
Proof.
  intros Hmax. induction j as [|j IH]; intros st Hm Hw Hpasses Hwait;
    rewrite images_loop_S.
  - destruct (Z.leb_spec 0 (il_maxWaiting st)) as [Hge|Hlt].
    + rewrite (images_passes_step _ Hge) in Hpasses. discriminate.
    + destruct (il_sys st) as [k t]. cbn [calls trace passes_trace repeat concat].
      now rewrite Nat.add_0_r, app_nil_r.
  - destruct (Z.leb_spec 0 (il_maxWaiting st)) as [Hge|Hlt];
      [|rewrite images_passes_exhausted in Hpasses by assumption; discriminate].
    rewrite (images_passes_step _ Hge) in Hpasses. injection Hpasses as Hpasses.
    rewrite images_iteration_waiting
      by (rewrite Hw; apply Hwait; lia).
    rewrite !budget_decrement
      by (change (2 ^ 63) with 9223372036854775808 in *; unfold Second in *; lia).
    rewrite IH; cbn [il_maxWaiting il_minWait il_sys after_iteration calls trace].
    + f_equal. f_equal. f_equal; [lia|].
      rewrite <- app_assoc. reflexivity.
    + lia.
    + lia.
    + exact Hpasses.
    + intros n Hn. apply Hwait. lia.
Qed.

(** C5. With a budget [maxWaiting] between 0 and the largest duration:
    every pass of either loop sleeps one second and makes its List call, and
    then either returns or sleeps one second again and decrements the budget
    by exactly two seconds; a pass of [GetRunningPodsWithImage] does the
    latter exactly when its List answer resolves nothing ([keeps_waiting]),
    and a pass of [GetNewestRunningPod] does so on an empty pod list.
    [GetRunningPodsWithImage] returns, after at most [maxWaiting / 2s + 1]
    List calls. When no List
    answer of the run resolves anything, it makes exactly that many complete
    passes and returns the timeout error, whose message carries the joined
    image names and the namespace used; and a timeout error is returned only
    after exactly that many passes. *)
Theorem discovery_wait_budget `{NodePkg} (clock : Clock) (client : Client)
    (imageNames : list string) (labelSelector : string) (imageSelector : list string)
    (namespace : string) (maxWaiting : Duration) :
  0 <= maxWaiting < 2 ^ 63 ->
  let ns := effective_namespace client namespace in
  (forall st,
     il_maxWaiting st = maxWaiting ->
     ((exists r s,
         images_iteration client imageNames ns st = Return (r, s) /\
         calls s = S (calls (il_sys st)) /\
         trace s = trace (il_sys st) ++ [EvSleep Second; EvList ns ""]) \/
      (exists st',
         images_iteration client imageNames ns st = Continue st' /\
         il_maxWaiting st' = maxWaiting - 2 * Second /\
         calls (il_sys st') = S (calls (il_sys st)) /\
         trace (il_sys st')
         = trace (il_sys st) ++ [EvSleep Second; EvList ns ""; EvSleep Second])) /\
     (keeps_waiting imageNames (il_minWait st) (PodsList client (calls (il_sys st)) ns "") ->
      exists st',
        images_iteration client imageNames ns st = Continue st' /\
        il_maxWaiting st' = maxWaiting - 2 * Second /\
        calls (il_sys st') = S (calls (il_sys st)) /\
        trace (il_sys st')
        = trace (il_sys st) ++ [EvSleep Second; EvList ns ""; EvSleep Second]) /\
     (forall st',
        images_iteration client imageNames ns st = Continue st' ->
        keeps_waiting imageNames (il_minWait st)
          (PodsList client (calls (il_sys st)) ns ""))) /\
  (forall st,
     nl_maxWaiting st = maxWaiting ->
     ((exists r s,
         newest_iteration clock client labelSelector imageSelector ns st = Return (r, s) /\
         calls s = S (calls (nl_sys st)) /\
         trace s = trace (nl_sys st) ++ [EvSleep Second; EvList ns labelSelector]) \/
      (exists st',
         newest_iteration clock client labelSelector imageSelector ns st = Continue st' /\
         nl_maxWaiting st' = maxWaiting - 2 * Second /\
         calls (nl_sys st') = S (calls (nl_sys st)) /\
         trace (nl_sys st')
         = trace (nl_sys st)
             ++ [EvSleep Second; EvList ns labelSelector; EvSleep Second])) /\
     (forall podList,
        PodsList client (calls (nl_sys st)) ns labelSelector = ListOk podList ->
        Items podList = [] ->
        exists st',
          newest_iteration clock client labelSelector imageSelector ns st = Continue st' /\
          nl_maxWaiting st' = maxWaiting - 2 * Second /\
          calls (nl_sys st') = S (calls (nl_sys st)) /\
          trace (nl_sys st')
          = trace (nl_sys st)
              ++ [EvSleep Second; EvList ns labelSelector; EvSleep Second])) /\
  (exists r s,
     GetRunningPodsWithImage (S (images_passes maxWaiting)) client imageNames namespace
       maxWaiting = Some (r, s)) /\
  (forall fuel r s,
     GetRunningPodsWithImage fuel client imageNames namespace maxWaiting = Some (r, s) ->
     Z.of_nat (calls s) <= maxWaiting / (2 * Second) + 1 /\
     (forall a b,
        r = Failed (ErrWaitTimedOut a b) ->
        a = imageNames /\ b = ns /\
        Z.of_nat (calls s) = maxWaiting / (2 * Second) + 1)) /\
  ((forall n, (n < images_passes maxWaiting)%nat ->
              keeps_waiting imageNames (60 * Second - 2 * Second * Z.of_nat n)
                (PodsList client n ns "")) ->
   GetRunningPodsWithImage (S (images_passes maxWaiting)) client imageNames namespace
     maxWaiting
   = Some (Failed (ErrWaitTimedOut imageNames ns),
           {| calls := images_passes maxWaiting;
              trace := passes_trace ns "" (images_passes maxWaiting) |})) /\
  Z.of_nat (images_passes maxWaiting) = maxWaiting / (2 * Second) + 1 /\
  Error_message (ErrWaitTimedOut imageNames ns)
  = "Waiting for pods with image names '" +:+ strings_Join imageNames ","
      +:+ "' in namespace " +:+ ns +:+ " timed out".
Proof.
  intros Hrange ns.
  assert (Hdec : dur_sub maxWaiting (dur_mul waitingInterval 2) = maxWaiting - 2 * Second).
  { apply budget_decrement.
    change (2 ^ 63) with 9223372036854775808 in *. unfold Second. lia. }
  split; [|split; [|split; [|split; [|split; [|split]]]]].
  - intros st Hm. split; [|split].
    + rewrite <- Hm. apply images_pass. now rewrite Hm.
    + intros Hwait. eexists. split; [now apply images_iteration_waiting|].
      cbn [il_maxWaiting il_sys after_iteration calls trace]. now rewrite Hm, Hdec.
    + intros st'. apply images_iteration_continue_waiting.
  - intros st Hm. split.
    + rewrite <- Hm. apply newest_pass. now rewrite Hm.
    + intros podList Hlist Hitems. eexists.
      split; [now apply (newest_iteration_no_pods _ _ _ _ _ _ podList)|].
      cbn [nl_maxWaiting nl_sys after_iteration calls trace]. now rewrite Hm, Hdec.
  - unfold GetRunningPodsWithImage.
    destruct (images_loop_terminates client imageNames ns (images_passes maxWaiting)
                {| il_maxWaiting := maxWaiting; il_minWait := dur_mul 60 Second;
                   il_sys := sys0 |}) as [[r s] Hrs]; cbn [il_maxWaiting]; [lia|lia|].
    now exists r, s.
  - intros fuel r s Hrun. unfold GetRunningPodsWithImage in Hrun.
    apply images_loop_result in Hrun; [|cbn [il_maxWaiting]; lia].
    cbn [il_maxWaiting il_sys sys0 calls] in Hrun. destruct Hrun as [Hle Hres].
    pose proof (images_passes_bound maxWaiting ltac:(lia)) as Hbound.
    split; [lia|].
    intros a b ->. destruct Hres as [[[= -> ->] Hcalls] | [st0 Hret]].
    + repeat split; auto. lia.
    + apply images_iteration_return in Hret as [_ Hret]. now specialize (Hret a b).
  - intros Hwait. unfold GetRunningPodsWithImage. fold ns.
    rewrite (images_loop_waiting client imageNames ns maxWaiting (images_passes maxWaiting));
      cbn [il_maxWaiting il_minWait il_sys sys0 calls trace];
      [reflexivity|lia|lia|reflexivity|reflexivity|].
    intros n Hn. apply Hwait. lia.
  - apply images_passes_bound. lia.
  - reflexivity.
Qed.

Lemma discovery_wait_budget_witness :
  GetRunningPodsWithImage 5 empty_cluster ["app:v1"; "app:v2"] "" (7 * Second)
  = Some (Failed (ErrWaitTimedOut ["app:v1"; "app:v2"] "default"),
          {| calls := 4; trace := passes_trace "default" "" 4 |}) /\
  (exists st',
     newest_iteration exact_clock empty_cluster "app=web" [] "default"
       {| nl_maxWaiting := 7 * Second; nl_sys := sys0 |} = Continue st' /\
     nl_maxWaiting st' = 7 * Second - 2 * Second /\
     calls (nl_sys st') = 1%nat /\
     trace (nl_sys st')
     = [EvSleep Second; EvList "default" "app=web"; EvSleep Second]).
Proof.
  assert (Hrange : 0 <= 7 * Second < 2 ^ 63)
    by (vm_compute; split; [discriminate|reflexivity]).
  pose proof (discovery_wait_budget exact_clock empty_cluster ["app:v1"; "app:v2"]
                "app=web" [] "" (7 * Second) Hrange) as Hbudget.
  cbn zeta in Hbudget.
  destruct Hbudget as (_ & Hnewest & _ & _ & Htimeout & _). split.
  - apply Htimeout. intros n _. left. reflexivity.
  - apply (proj2 (Hnewest {| nl_maxWaiting := 7 * Second; nl_sys := sys0 |} eq_refl)
             {| Size := 2; Items := [] |}); reflexivity.
Defined.

Example images_timeout_run :
  GetRunningPodsWithImage 5 empty_cluster ["app:v1"; "app:v2"] "" (7 * Second)
  = Some (Failed (ErrWaitTimedOut ["app:v1"; "app:v2"] "default"),
          {| calls := 4;
             trace := concat (repeat [EvSleep Second; EvList "default" ""; EvSleep Second] 4) |}).
Proof. reflexivity. Qed.

Example images_running_pods :
  GetRunningPodsWithImage 1 (steady_cluster [pod_old; pod_newest_other_image; pod_new])
    ["app:v2"; "app:v1"] "" 0
  = Some (Returned [pod_old; pod_new],
          {| calls := 1; trace := [EvSleep Second; EvList "default" ""] |}).
Proof. reflexivity. Qed.

Example images_critical_pod :
  GetRunningPodsWithImage 1 (steady_cluster [pod_old; pod_crash_loop]) ["app:v1"] "dev"
    (10 * Second)
  = Some (Failed (ErrPodCannotStart "web" "CrashLoopBackOff"),
          {| calls := 1; trace := [EvSleep Second; EvList "dev" ""] |}).
Proof. reflexivity. Qed.

(** More fuel never changes a result. *)
Lemma images_loop_fuel `{NodePkg} (client : Client) (imageNames : list string)
    (namespace : string) (fuel : nat) :
  forall (fuel' : nat) (st : ImagesLoop) (rs : Outcome (list Pod) * Sys),
  (fuel <= fuel')%nat ->
  images_loop fuel client imageNames namespace st = Some rs ->
  images_loop fuel' client imageNames namespace st = Some rs.
Proof.
  induction fuel as [|fuel IH]; intros fuel' st rs Hle; [discriminate|].
  destruct fuel' as [|fuel']; [lia|]. cbn [images_loop].
  destruct (0 <=? il_maxWaiting st); [|trivial].
  destruct (images_iteration client imageNames namespace st); [|trivial].
  apply IH. lia.
Qed.

Lemma newest_loop_fuel `{NodePkg} (clock : Clock) (client : Client)
    (labelSelector : string) (imageSelector : list string) (namespace : string)
    (fuel : nat) :
  forall (fuel' : nat) (st : NewestLoop) (rs : Outcome Pod * Sys),
  (fuel <= fuel')%nat ->
  newest_loop fuel clock client labelSelector imageSelector namespace st = Some rs ->
  newest_loop fuel' clock client labelSelector imageSelector namespace st = Some rs.
Proof.
  induction fuel as [|fuel IH]; intros fuel' st rs Hle; [discriminate|].
  destruct fuel' as [|fuel']; [lia|]. cbn [newest_loop].
  destruct (newest_iteration clock client labelSelector imageSelector namespace st)
    as [st'|]; [|trivial].
  destruct (0 <? nl_maxWaiting st'); [|trivial].
  apply IH. lia.
Qed.

(** ** GetNewestRunningPod when nothing is selected *)

Lemma select_loop_all_fail (imageSelector : list string) (items : list Pod) :
  Forall (fun pod => passes imageSelector pod = false) items ->
  select_loop imageSelector items None = None.
Proof.
  induction 1 as [|p rest Hp _ IH]; [reflexivity|].
  rewrite select_loop_cons, Hp. exact IH.
Qed.

Lemma newest_passes_step (m : Duration) :
  0 < m - 2 * Second -> newest_passes m = S (newest_passes (m - 2 * Second)).
Proof.
  intros Hm. unfold newest_passes.
  replace ((m + 2 * Second - 1) / (2 * Second))
    with ((m - 2 * Second + 2 * Second - 1) / (2 * Second) + 1).
  - assert (1 <= (m - 2 * Second + 2 * Second - 1) / (2 * Second)).
    { apply Z.div_le_lower_bound; unfold Second in *; lia. }
    lia.
  - rewrite <- Z.div_add by (unfold Second; lia). f_equal. lia.
Qed.

Lemma newest_passes_last (m : Duration) :
  m - 2 * Second <= 0 -> newest_passes m = 1%nat.
Proof.
  intros Hm. unfold newest_passes.
  assert ((m + 2 * Second - 1) / (2 * Second) <= 1).
  { apply Z.lt_succ_r, Z.div_lt_upper_bound; unfold Second in *; lia. }
  lia.
Qed.

Lemma newest_passes_pos (m : Duration) : (1 <= newest_passes m)%nat.
Proof. unfold newest_passes. lia. Qed.

Lemma newest_loop_S `{NodePkg} (clock : Clock) (client : Client)
    (labelSelector : string) (imageSelector : list string) (namespace : string)
    (fuel : nat) (st : NewestLoop) :
  newest_loop (S fuel) clock client labelSelector imageSelector namespace st =
  match newest_iteration clock client labelSelector imageSelector namespace st with
  | Return r => Some r
  | Continue st' =>
    if 0 <? nl_maxWaiting st'
    then newest_loop fuel clock client labelSelector imageSelector namespace st'
    else Some (Failed (ErrNoPodFound labelSelector namespace), nl_sys st')
  end.
Proof. reflexivity. Qed.

Section EmptyLists.
Context `{NodePkg} (clock : Clock) (client : Client).
Context (labelSelector : string) (imageSelector : list string) (namespace : string).
Hypothesis Hempty :
  forall n, exists podList,
    PodsList client n namespace labelSelector = ListOk podList /\ Items podList = [].

Lemma newest_iteration_empty (st : NewestLoop) :
  newest_iteration clock client labelSelector imageSelector namespace st
  = Continue {| nl_maxWaiting := dur_sub (nl_maxWaiting st) (dur_mul waitingInterval 2);
                nl_sys := after_iteration namespace labelSelector (nl_sys st) |}.
Proof.
  rewrite newest_iteration_eq. cbn zeta.
  destruct (Hempty (calls (nl_sys st))) as (podList & -> & ->).
  now rewrite andb_false_r.
Qed.

(** With empty answers only, the loop runs until the budget is used up. *)
Lemma newest_loop_empty (n : nat) :
  forall st : NewestLoop,
  - 2 ^ 63 + 2 * Second <= nl_maxWaiting st < 2 ^ 63 ->
  (newest_passes (nl_maxWaiting st) <= S n)%nat ->
  exists s,
    newest_loop (S n) clock client labelSelector imageSelector namespace st
    = Some (Failed (ErrNoPodFound labelSelector namespace), s) /\
    calls s = (calls (nl_sys st) + newest_passes (nl_maxWaiting st))%nat.
Proof.
  induction n as [|n IH]; intros st Hrange Hn;
    rewrite newest_loop_S, newest_iteration_empty;
    cbn [nl_maxWaiting nl_sys]; rewrite budget_decrement by assumption;
    destruct (Z.ltb_spec 0 (nl_maxWaiting st - 2 * Second)) as [Hpos|Hneg].
  - rewrite newest_passes_step in Hn by assumption.
    pose proof (newest_passes_pos (nl_maxWaiting st - 2 * Second)). lia.
  - eexists. split; [reflexivity|]. rewrite newest_passes_last by assumption.
    cbn [after_iteration calls]. lia.
  - rewrite newest_passes_step in Hn |- * by assumption.
    destruct (IH {| nl_maxWaiting := nl_maxWaiting st - 2 * Second;
                    nl_sys := after_iteration namespace labelSelector (nl_sys st) |})
      as (s & Hs & Hcalls); cbn [nl_maxWaiting nl_sys].
    + change (2 ^ 63) with 9223372036854775808 in *. unfold Second in *. lia.
    + lia.
    + exists s. split; [exact Hs|].
      cbn [nl_maxWaiting nl_sys after_iteration calls] in Hcalls. lia.
  - eexists. split; [reflexivity|]. rewrite newest_passes_last by assumption.
    cbn [after_iteration calls]. lia.
Qed.

(** Termination for every budget, including one so negative that the first
    decrement wraps around. *)
Lemma newest_loop_empty_terminates (st : NewestLoop) :
  exists fuel s,
    newest_loop fuel clock client labelSelector imageSelector namespace st
    = Some (Failed (ErrNoPodFound labelSelector namespace), s).
Proof.
  set (m1 := dur_sub (nl_maxWaiting st) (dur_mul waitingInterval 2)).
  destruct (Z.ltb_spec 0 m1) as [Hpos|Hneg].
  - destruct (newest_loop_empty (newest_passes m1)
                {| nl_maxWaiting := m1;
                   nl_sys := after_iteration namespace labelSelector (nl_sys st) |})
      as (s & Hs & _); cbn [nl_maxWaiting].
    + pose proof (wrap64_range (nl_maxWaiting st - dur_mul waitingInterval 2)) as Hr.
      fold (dur_sub (nl_maxWaiting st) (dur_mul waitingInterval 2)) in Hr. fold m1 in Hr.
      change (2 ^ 63) with 9223372036854775808 in *. unfold Second. lia.
    + lia.
    + exists (S (S (newest_passes m1))), s.
      rewrite newest_loop_S, newest_iteration_empty. cbn [nl_maxWaiting]. fold m1.
      apply Z.ltb_lt in Hpos. rewrite Hpos. exact Hs.
  - exists 1%nat. eexists. rewrite newest_loop_S.
    rewrite newest_iteration_empty. cbn [nl_maxWaiting]. fold m1.
    apply Z.ltb_ge in Hneg. rewrite Hneg. reflexivity.
Qed.

(** With empty answers only, no result other than the final error exists. *)
Lemma newest_loop_empty_result (fuel : nat) (st : NewestLoop) (r : Outcome Pod) (s : Sys) :
  newest_loop fuel clock client labelSelector imageSelector namespace st = Some (r, s) ->
  r = Failed (ErrNoPodFound labelSelector namespace).
Proof.
  intros Hloop. apply newest_loop_result in Hloop as [Hr | (n & _ & _ & Hret)]; [exact Hr|].
  unfold returned_at in Hret. destruct (Hempty n) as (podList & Hlist & Hitems).
  rewrite Hlist in Hret. destruct Hret as (_ & Hne & _). contradiction.
Qed.

End EmptyLists.

(** C4. The early "Couldn't find a pod" error of [GetNewestRunningPod] comes
    only from a pass whose List call answered with a non-empty pod list none
    of whose pods passed the (then non-empty) image filter, read after more
    than a minute. When every List call answers with an empty list, the only
    result is the final "No pod ... found" error, and it is reached: the loop
    runs [newest_passes maxWaiting] passes, until the budget is used up. *)
Theorem early_error_needs_unfiltered_pods `{NodePkg} (clock : Clock) (client : Client)
    (labelSelector : string) (imageSelector : list string) (namespace : string)
    (maxWaiting : Duration) :
  let ns := effective_namespace client namespace in
  (forall fuel a b s,
     GetNewestRunningPod fuel clock client labelSelector imageSelector namespace maxWaiting
       = Some (Failed (ErrCouldntFind a b), s) ->
     exists n podList,
       PodsList client n ns labelSelector = ListOk podList /\
       Items podList <> [] /\
       imageSelector <> [] /\
       Forall (fun pod => matches_image imageSelector (Containers (Spec pod)) = false)
              (Items podList) /\
       Minute < Since clock n) /\
  ((forall n, exists podList,
       PodsList client n ns labelSelector = ListOk podList /\ Items podList = []) ->
   (forall fuel r s,
      GetNewestRunningPod fuel clock client labelSelector imageSelector namespace maxWaiting
        = Some (r, s) ->
      r = Failed (ErrNoPodFound labelSelector ns)) /\
   (exists fuel s,
      GetNewestRunningPod fuel clock client labelSelector imageSelector namespace maxWaiting
        = Some (Failed (ErrNoPodFound labelSelector ns), s) /\
      (0 <= maxWaiting < 2 ^ 63 -> calls s = newest_passes maxWaiting))).
Proof.
  intros ns. split.
  - intros fuel a b s Hrun. unfold GetNewestRunningPod in Hrun. fold ns in Hrun.
    apply newest_loop_result in Hrun as [Habs | (n & _ & _ & Hret)]; [discriminate|].
    unfold returned_at in Hret.
    destruct (PodsList client n ns labelSelector) as [podList|msg] eqn:Hlist;
      [|discriminate].
    destruct Hret as (_ & Hitems & Hret).
    destruct (select_loop imageSelector (Items podList) None) as [pod|] eqn:Hsel.
    { destruct Hret as [[_ Habs] | [_ Habs]]; discriminate. }
    destruct Hret as [Hlate _]. apply select_loop_none in Hsel.
    assert (Hfilter : imageSelector <> []).
    { intros ->. destruct (Items podList) as [|p items]; [contradiction|].
      inversion Hsel as [|? ? Hp _]. discriminate Hp. }
    exists n, podList. repeat split; auto.
    revert Hsel. apply List.Forall_impl. intros pod Hp.
    now rewrite passes_nonempty in Hp.
  - intros Hempty. split.
    + intros fuel r s Hrun. unfold GetNewestRunningPod in Hrun.
      now apply (newest_loop_empty_result clock client labelSelector imageSelector ns Hempty)
        in Hrun.
    + unfold GetNewestRunningPod. fold ns.
      destruct (Z_lt_dec maxWaiting 0) as [Hneg|Hnonneg].
      * destruct (newest_loop_empty_terminates clock client labelSelector imageSelector ns
                    Hempty {| nl_maxWaiting := maxWaiting; nl_sys := sys0 |})
          as (fuel & s & Hs).
        exists fuel, s. split; [exact Hs|lia].
      * destruct (Z_lt_dec maxWaiting (2 ^ 63)) as [Hsmall|Hbig].
        -- destruct (newest_loop_empty clock client labelSelector imageSelector ns Hempty
                       (newest_passes maxWaiting)
                       {| nl_maxWaiting := maxWaiting; nl_sys := sys0 |})
             as (s & Hs & Hcalls); cbn [nl_maxWaiting].
           ++ change (2 ^ 63) with 9223372036854775808 in *. unfold Second. lia.
           ++ lia.
           ++ exists (S (newest_passes maxWaiting)), s. split; [exact Hs|].
              intros _. exact Hcalls.
        -- destruct (newest_loop_empty_terminates clock client labelSelector imageSelector
                       ns Hempty {| nl_maxWaiting := maxWaiting; nl_sys := sys0 |})
             as (fuel & s & Hs).
           exists fuel, s. split; [exact Hs|lia].
Qed.

Lemma early_error_needs_unfiltered_pods_witness :
  (exists fuel s,
     GetNewestRunningPod fuel exact_clock empty_cluster "app=web" ["app:v1"] ""
       (5 * Second)
     = Some (Failed (ErrNoPodFound "app=web" "default"), s) /\
     (0 <= 5 * Second < 2 ^ 63 -> calls s = newest_passes (5 * Second))) /\
  (exists n podList,
     PodsList (steady_cluster [pod_newest_other_image]) n "default" "app=web"
       = ListOk podList /\
     Items podList <> [] /\
     ["app:v1"] <> [] /\
     Forall (fun pod => matches_image ["app:v1"] (Containers (Spec pod)) = false)
            (Items podList) /\
     Minute < Since exact_clock n).
Proof.
  split.
  - apply (proj2 (early_error_needs_unfiltered_pods exact_clock empty_cluster "app=web"
                    ["app:v1"] "" (5 * Second))).
    intros n. eexists. split; reflexivity.
  - refine (proj1 (early_error_needs_unfiltered_pods exact_clock
                     (steady_cluster [pod_newest_other_image]) "app=web" ["app:v1"] ""
                     (120 * Second)) 31%nat "app=web" "default" _ _).
    vm_compute. reflexivity.
Defined.

Example newest_empty_run :
  GetNewestRunningPod 4 exact_clock empty_cluster "app=web" ["app:v1"] "" (5 * Second)
  = Some (Failed (ErrNoPodFound "app=web" "default"),
          {| calls := 3;
             trace := concat (repeat [EvSleep Second; EvList "default" "app=web";
                                      EvSleep Second] 3) |}).
Proof. reflexivity. Qed.

(** ** GetNewestRunningPod when pods are listed but none passes the filter *)

Section Unfiltered.
Context `{NodePkg} (clock : Clock) (client : Client).
Context (labelSelector : string) (imageSelector : list string) (namespace : string).
Context (k : nat).
Hypothesis Hlists :
  forall n, (n <= k)%nat -> exists podList,
    PodsList client n namespace labelSelector = ListOk podList /\
    0 < Size podList /\ Items podList <> [] /\
    Forall (fun pod => passes imageSelector pod = false) (Items podList).
Hypothesis Hearly : forall n, (n < k)%nat -> Since clock n <= Minute.
Hypothesis Hlate : Minute < Since clock k.

Lemma newest_iteration_unfiltered (st : NewestLoop) :
  (calls (nl_sys st) <= k)%nat ->
  newest_iteration clock client labelSelector imageSelector namespace st =
  if Minute <? Since clock (calls (nl_sys st))
  then Return (Failed (ErrCouldntFind labelSelector namespace),
               after_poll namespace labelSelector (nl_sys st))
  else Continue {| nl_maxWaiting := dur_sub (nl_maxWaiting st) (dur_mul waitingInterval 2);
                   nl_sys := after_iteration namespace labelSelector (nl_sys st) |}.
Proof.
  intros Hk. rewrite newest_iteration_eq. cbn zeta.
  destruct (Hlists _ Hk) as (podList & -> & Hsize & Hitems & Hfail).
  rewrite (select_loop_all_fail _ _ Hfail).
  apply Z.ltb_lt in Hsize. rewrite Hsize.
  destruct (Items podList); [contradiction|reflexivity].
Qed.

Lemma newest_loop_unfiltered (d : nat) :
  forall st : NewestLoop,
  (calls (nl_sys st) + d = k)%nat ->
  2 * Second * Z.of_nat d < nl_maxWaiting st < 2 ^ 63 ->
  exists s,
    newest_loop (S d) clock client labelSelector imageSelector namespace st
    = Some (Failed (ErrCouldntFind labelSelector namespace), s) /\
    calls s = S k.
Proof.
  induction d as [|d IH]; intros st Hk Hbudget;
    rewrite newest_loop_S, newest_iteration_unfiltered by lia.
  - replace (calls (nl_sys st)) with k by lia.
    apply Z.ltb_lt in Hlate. rewrite Hlate. eexists. split; [reflexivity|].
    cbn [after_poll calls]. lia.
  - pose proof (Hearly (calls (nl_sys st)) ltac:(lia)) as Hle.
    apply Z.ltb_ge in Hle. rewrite Hle. cbn [nl_maxWaiting].
    rewrite budget_decrement
      by (change (2 ^ 63) with 9223372036854775808 in *; unfold Second in *; lia).
    assert (Hpos : (0 <? nl_maxWaiting st - 2 * Second) = true)
      by (apply Z.ltb_lt; unfold Second in *; lia).
    rewrite Hpos. apply IH; cbn [nl_maxWaiting nl_sys after_iteration calls].
    + lia.
    + unfold Second in *. lia.
Qed.

End Unfiltered.

(** C3, as the code has it. If the List calls of [GetNewestRunningPod] up to
    the [k]-th answer with non-empty pod lists in which no pod passes the
    image filter, the [k]-th pass is the first to read an elapsed time of
    more than one minute, and the budget allows that many passes, then the
    call fails in that pass with the "Couldn't find a pod" error, whatever
    budget is left; the message of this error differs from the message of the
    final "No pod ... found" error. *)
Theorem early_no_match_error `{NodePkg} (clock : Clock) (client : Client)
    (labelSelector : string) (imageSelector : list string) (namespace : string)
    (maxWaiting : Duration) (k : nat) :
  let ns := effective_namespace client namespace in
  (forall n, (n <= k)%nat -> exists podList,
      PodsList client n ns labelSelector = ListOk podList /\
      0 < Size podList /\ Items podList <> [] /\
      Forall (fun pod => passes imageSelector pod = false) (Items podList)) ->
  (forall n, (n < k)%nat -> Since clock n <= Minute) ->
  Minute < Since clock k ->
  2 * Second * Z.of_nat k < maxWaiting < 2 ^ 63 ->
  (exists s,
     GetNewestRunningPod (S k) clock client labelSelector imageSelector namespace maxWaiting
       = Some (Failed (ErrCouldntFind labelSelector ns), s) /\
     calls s = S k) /\
  Error_message (ErrCouldntFind labelSelector ns)
    <> Error_message (ErrNoPodFound labelSelector ns).
Proof.
  intros ns Hlists Hearly Hlate Hbudget. split.
  - unfold GetNewestRunningPod. fold ns.
    apply (newest_loop_unfiltered clock client labelSelector imageSelector ns k
             Hlists Hearly Hlate k); cbn [nl_maxWaiting nl_sys sys0 calls]; [lia|assumption].
  - cbn. discriminate.
Qed.

Lemma early_no_match_error_witness :
  exists s,
    GetNewestRunningPod 31 exact_clock (steady_cluster [pod_newest_other_image])
      "app=web" ["app:v1"] "" (120 * Second)
    = Some (Failed (ErrCouldntFind "app=web" "default"), s) /\
    calls s = 31%nat.
Proof.
  refine (proj1 (early_no_match_error exact_clock (steady_cluster [pod_newest_other_image])
            "app=web" ["app:v1"] "" (120 * Second) 30 _ _ _ _)).
  - intros n _. eexists. split; [reflexivity|].
    split; [reflexivity|]. split; [discriminate|]. repeat constructor.
  - intros n Hn. unfold exact_clock, Minute, Second. cbn [Since]. lia.
  - reflexivity.
  - split; reflexivity.
Defined.

(** C3 fails as stated: while the selector matches no pod at all, the clock
    passes 70 seconds and the call still ends only when the budget is used
    up, with the final error. *)
Lemma early_no_match_error_counterexample :
  (forall n, PodsList empty_cluster n "default" "app=web"
             = ListOk {| Size := 2; Items := [] |}) /\
  70 * Second < Since exact_clock 35 /\
  fst <$> GetNewestRunningPod 61 exact_clock empty_cluster "app=web" [] "" (120 * Second)
    = Some (Failed (ErrNoPodFound "app=web" "default")) /\
  fst <$> GetNewestRunningPod 61 exact_clock empty_cluster "app=web" [] "" (120 * Second)
    <> Some (Failed (ErrCouldntFind "app=web" "default")) /\
  calls ∘ snd <$> GetNewestRunningPod 61 exact_clock empty_cluster "app=web" [] ""
                    (120 * Second)
    = Some 60%nat.
Proof.
  split; [reflexivity|]. split; [reflexivity|].
  split; [vm_compute; reflexivity|]. split; [vm_compute; discriminate|].
  vm_compute; reflexivity.
Qed.

(** * Further properties of the classifier and the discovery loops *)

(** ** The status tables *)

Lemma CriticalStatus_chain (podStatus : string) :
  map_index CriticalStatus podStatus
  = (String.eqb podStatus "Error" || String.eqb podStatus "Unknown"
     || String.eqb podStatus "ImagePullBackOff" || String.eqb podStatus "CrashLoopBackOff"
     || String.eqb podStatus "RunContainerError" || String.eqb podStatus "ErrImagePull"
     || String.eqb podStatus "CreateContainerConfigError"
     || String.eqb podStatus "InvalidImageName").
Proof.
  unfold map_index, CriticalStatus.
  cbn [list_to_map foldr fst snd uncurry].
  repeat match goal with
         | |- context [String.eqb podStatus ?k] =>
           destruct (String.eqb_spec podStatus k) as [->|?]; [reflexivity|]
         end.
  rewrite !lookup_insert_ne by congruence. reflexivity.
Qed.

(** X3. The [CriticalStatus] table consulted by [GetRunningPodsWithImage] and
    the chain of comparisons in [GetNewestRunningPod] single out the same
    statuses, and none of them is "Running" or "Completed". *)
Theorem critical_table_agrees_with_chain (podStatus : string) :
  map_index CriticalStatus podStatus = cannot_start podStatus /\
  (map_index CriticalStatus podStatus = true ->
   podStatus <> "Running" /\ podStatus <> "Completed").
Proof.
  split; [apply CriticalStatus_chain|].
  intros Hcrit. split; intros ->; discriminate Hcrit.
Qed.

Lemma critical_table_agrees_with_chain_witness :
  "CrashLoopBackOff" <> "Running" /\ "CrashLoopBackOff" <> "Completed".
Proof. apply (proj2 (critical_table_agrees_with_chain "CrashLoopBackOff")). reflexivity. Defined.

(** ** Pods that are still initializing *)

Lemma init_loop_unfinished (total : nat) (statuses : list ContainerStatus) :
  forall (i : nat) (reason : string),
  forallb init_succeeded statuses = false ->
  exists rest, init_loop total i statuses reason = ("Init:" +:+ rest, true).
Proof.
  induction statuses as [|c statuses IH]; intros i reason Hun; [discriminate|].
  cbn [forallb] in Hun. cbn [init_loop]. unfold init_succeeded in Hun at 1.
  destruct (Terminated (State c)) as [t|].
  - destruct (ExitCode t =? 0).
    + apply IH. exact Hun.
    + repeat match goal with
             | |- context [if ?b then _ else _] => destruct b
             end; eexists; reflexivity.
  - repeat match goal with
           | |- context [match ?x with _ => _ end] => destruct x
           end; eexists; reflexivity.
Qed.

Lemma init_prefix_not_final (rest : string) :
  "Init:" +:+ rest <> "Running" /\ "Init:" +:+ rest <> "Completed" /\
  cannot_start ("Init:" +:+ rest) = false.
Proof. repeat split; try discriminate. Qed.

(** X1. While some init container has not terminated with exit code 0 and the
    pod is not being deleted, the status starts with "Init:", does not depend
    on the main container statuses, and is neither "Running" nor "Completed"
    nor critical for either discovery loop. *)
Theorem initializing_pod_status `{NodePkg} (pod : Pod) :
  forallb init_succeeded (InitContainerStatuses (Status pod)) = false ->
  DeletionTimestamp pod = None ->
  (exists rest, GetPodStatus pod = "Init:" +:+ rest) /\
  (forall mains, GetPodStatus (with_container_statuses pod mains) = GetPodStatus pod) /\
  GetPodStatus pod <> "Running" /\
  GetPodStatus pod <> "Completed" /\
  cannot_start (GetPodStatus pod) = false /\
  map_index CriticalStatus (GetPodStatus pod) = false.
Proof.
  intros Hun Hdel.
  assert (Hstatus : forall mains, exists rest,
             GetPodStatus (with_container_statuses pod mains) = "Init:" +:+ rest /\
             GetPodStatus pod = "Init:" +:+ rest).
  { intros mains. unfold GetPodStatus. cbn [with_container_statuses Status Spec
      DeletionTimestamp Phase Reason InitContainerStatuses ContainerStatuses].
    destruct (init_loop_unfinished (length (InitContainers (Spec pod)))
                (InitContainerStatuses (Status pod)) 0
                (if negb (String.eqb (Reason (Status pod)) "")
                 then Reason (Status pod) else Phase (Status pod)) Hun) as [rest ->].
    rewrite Hdel. exists rest. split; reflexivity. }
  destruct (Hstatus []) as (rest & _ & Hrest).
  destruct (init_prefix_not_final rest) as (Hrun & Hcompl & Hcrit).
  split; [now exists rest|]. split.
  - intros mains. destruct (Hstatus mains) as (rest' & -> & ->). reflexivity.
  - rewrite CriticalStatus_chain. fold (cannot_start (GetPodStatus pod)).
    rewrite Hrest. auto.
Qed.

Lemma initializing_pod_status_witness :
  GetPodStatus (with_container_statuses pod_init_second_failed [running true])
  = GetPodStatus pod_init_second_failed.
Proof.
  apply (proj1 (proj2 (initializing_pod_status pod_init_second_failed eq_refl eq_refl))).
Defined.

(** X2. The first init container that has not terminated with exit code 0
    decides the status of a pod that is not being deleted: a termination
    reason or a waiting reason other than "PodInitializing" is reported as
    "Init:<reason>", a termination by signal without reason as
    "Init:Signal:<n>", and a container that runs or waits without a telling
    reason as "Init:<i>/<n>", where [i] counts the init containers before it
    and [n] the init containers declared in the pod spec. *)
Theorem first_unfinished_init_container `{NodePkg}
    (pod : Pod) (done rest : list ContainerStatus) (c : ContainerStatus) :
  InitContainerStatuses (Status pod) = done ++ c :: rest ->
  forallb init_succeeded done = true ->
  DeletionTimestamp pod = None ->
  (forall t, Terminated (State c) = Some t -> ExitCode t <> 0 ->
             TerminatedReason t <> "" ->
             GetPodStatus pod = "Init:" +:+ TerminatedReason t) /\
  (forall t, Terminated (State c) = Some t -> ExitCode t <> 0 ->
             TerminatedReason t = "" -> Signal t <> 0 ->
             GetPodStatus pod = "Init:Signal:" +:+ fmt_d (Signal t)) /\
  (forall w, Terminated (State c) = None -> Waiting (State c) = Some w ->
             WaitingReason w <> "" -> WaitingReason w <> "PodInitializing" ->
             GetPodStatus pod = "Init:" +:+ WaitingReason w) /\
  (Terminated (State c) = None ->
   (forall w, Waiting (State c) = Some w ->
              WaitingReason w = "" \/ WaitingReason w = "PodInitializing") ->
   GetPodStatus pod
   = "Init:" +:+ fmt_d (Z.of_nat (length done)) +:+ "/"
       +:+ fmt_d (Z.of_nat (length (InitContainers (Spec pod))))).
Proof.
  intros Hsts Hdone Hdel.
  assert (Hlen : forall s, (String.length s =? 0)%nat = String.eqb s "").
  { intros [|a s]; reflexivity. }
  assert (Hpos : forall s, (0 <? String.length s)%nat = negb (String.eqb s "")).
  { intros [|a s]; reflexivity. }
  unfold GetPodStatus. rewrite Hsts, init_loop_succeeded, Hdel by assumption.
  cbn [init_loop Nat.add]. repeat split.
  - intros t -> Hcode Hreason. apply Z.eqb_neq in Hcode. rewrite Hcode, Hlen.
    apply String.eqb_neq in Hreason. now rewrite Hreason.
  - intros t -> Hcode Hreason Hsig. apply Z.eqb_neq in Hcode, Hsig.
    now rewrite Hcode, Hreason, Hsig.
  - intros w -> -> Hreason Hinit. rewrite Hpos.
    apply String.eqb_neq in Hreason, Hinit. now rewrite Hreason, Hinit.
  - intros -> Hw. destruct (Waiting (State c)) as [w|]; [|reflexivity].
    destruct (Hw w eq_refl) as [-> | ->]; reflexivity.
Qed.

Lemma first_unfinished_init_container_witness :
  GetPodStatus pod_init_running = "Init:0/1" /\
  GetPodStatus pod_init_second_failed = "Init:ImagePullBackOff".
Proof.
  split.
  - apply (proj2 (proj2 (proj2 (first_unfinished_init_container pod_init_running []
             [] (running false) eq_refl eq_refl eq_refl)))); [reflexivity|].
    intros w [=].
  - apply (proj1 (proj2 (proj2 (first_unfinished_init_container pod_init_second_failed []
             [terminated 3 0 ""] (waiting "ImagePullBackOff") eq_refl eq_refl eq_refl)))
             {| WaitingReason := "ImagePullBackOff" |}); try reflexivity; discriminate.
Defined.

(** ** Ties between creation timestamps *)

Lemma select_loop_keeps (imageSelector : list string) (p : Pod) (items : list Pod) :
  Forall (fun q => passes imageSelector q = true ->
                   CreationTimestamp q <= CreationTimestamp p) items ->
  select_loop imageSelector items (Some p) = Some p.
Proof.
  induction 1 as [|q items Hq _ IH]; [reflexivity|].
  rewrite select_loop_cons.
  destruct (passes imageSelector q); [|now rewrite andb_false_r].
  specialize (Hq eq_refl).
  destruct (Z.ltb_spec (CreationTimestamp p) (CreationTimestamp q)); [lia|exact IH].
Qed.

Lemma select_loop_reaches (imageSelector : list string) (p : Pod)
    (before after : list Pod) :
  passes imageSelector p = true ->
  Forall (fun q => passes imageSelector q = true ->
                   CreationTimestamp q < CreationTimestamp p) before ->
  forall selectedPod : option Pod,
  (forall q, selectedPod = Some q -> CreationTimestamp q < CreationTimestamp p) ->
  select_loop imageSelector (before ++ p :: after) selectedPod
  = select_loop imageSelector after (Some p).
Proof.
  intros Hp Hbefore. induction Hbefore as [|q before Hq _ IH]; intros sel0 Hsel0.
  - cbn [app]. rewrite select_loop_cons, Hp, andb_true_r.
    destruct sel0 as [q|]; [|reflexivity].
    specialize (Hsel0 q eq_refl). apply Z.ltb_lt in Hsel0. now rewrite Hsel0.
  - cbn [app]. rewrite select_loop_cons. apply IH.
    destruct (passes imageSelector q).
    + specialize (Hq eq_refl).
      destruct sel0 as [q0|]; cbn [andb];
        [destruct (CreationTimestamp q0 <? CreationTimestamp q)|];
        intros q' [= <-]; auto.
    + rewrite andb_false_r. exact Hsel0.
Qed.

(** X4. Among the pods that pass the image filter, the selection keeps the
    first-listed of those with the latest creation timestamp: a pod listed
    later replaces the candidate only when it is strictly newer. *)
Theorem newest_tie_keeps_first_listed (imageSelector : list string) (p : Pod)
    (before after : list Pod) :
  passes imageSelector p = true ->
  Forall (fun q => passes imageSelector q = true ->
                   CreationTimestamp q < CreationTimestamp p) before ->
  Forall (fun q => passes imageSelector q = true ->
                   CreationTimestamp q <= CreationTimestamp p) after ->
  select_loop imageSelector (before ++ p :: after) None = Some p.
Proof.
  intros Hp Hbefore Hafter.
  rewrite select_loop_reaches by (auto; discriminate).
  now apply select_loop_keeps.
Qed.

Lemma newest_tie_keeps_first_listed_witness :
  select_loop [] [pod_old; pod_new; with_container_statuses pod_new []] None = Some pod_new.
Proof.
  apply (newest_tie_keeps_first_listed [] pod_new [pod_old]
           [with_container_statuses pod_new []]); [reflexivity| |];
    repeat constructor; cbn; lia.
Defined.

(** ** The pod scan of GetRunningPodsWithImage *)

Lemma settled_cases `{NodePkg} (imageNames : list string) (pod : Pod) :
  settled imageNames pod = true ->
  matches_image imageNames (Containers (Spec pod)) = true ->
  map_index CriticalStatus (GetPodStatus pod) = false /\
  ((String.eqb (GetPodStatus pod) "Running" = true /\
    String.eqb (GetPodStatus pod) "Completed" = false) \/
   (String.eqb (GetPodStatus pod) "Running" = false /\
    String.eqb (GetPodStatus pod) "Completed" = true)).
Proof.
  unfold settled. intros Hs Hm. rewrite Hm in Hs. cbn [negb orb] in Hs.
  rewrite CriticalStatus_chain.
  destruct (String.eqb_spec (GetPodStatus pod) "Running") as [->|Hrun];
    [split; [reflexivity|left; now split]|].
  destruct (String.eqb_spec (GetPodStatus pod) "Completed") as [->|Hcompl];
    [split; [reflexivity|right; now split]|discriminate].
Qed.

Lemma pod_loop_step_settled `{NodePkg} (imageNames : list string) (pod : Pod)
    (rest pods : list Pod) :
  settled imageNames pod = true ->
  pod_loop imageNames (pod :: rest) pods
  = pod_loop imageNames rest (pods ++ List.filter (collected imageNames) [pod]).
Proof.
  intros Hs. cbn [pod_loop List.filter]. unfold collected.
  destruct (matches_image imageNames (Containers (Spec pod))) eqn:Hm.
  - destruct (settled_cases imageNames pod Hs Hm) as [-> [[-> ->] | [-> ->]]];
      cbn [andb negb]; [reflexivity|now rewrite app_nil_r].
  - cbn [andb]. now rewrite app_nil_r.
Qed.

Lemma pod_loop_all_settled `{NodePkg} (imageNames : list string) (items : list Pod) :
  forall pods : list Pod,
  Forall (fun pod => settled imageNames pod = true) items ->
  pod_loop imageNames items pods
  = PodLoopDone (pods ++ List.filter (collected imageNames) items) false.
Proof.
  induction items as [|pod rest IH]; intros pods Hall.
  - cbn. now rewrite app_nil_r.
  - inversion Hall as [|? ? Hs Hrest]; subst.
    rewrite pod_loop_step_settled, IH by assumption.
    rewrite <- app_assoc. f_equal. f_equal.
    change (pod :: rest) with ([pod] ++ rest). now rewrite List.filter_app.
Qed.

Lemma pod_loop_unsettled `{NodePkg} (imageNames : list string) (pod : Pod)
    (rest pods : list Pod) :
  settled imageNames pod = false ->
  pod_loop imageNames (pod :: rest) pods
  = if map_index CriticalStatus (GetPodStatus pod)
    then PodLoopCritical (Name pod) (GetPodStatus pod)
    else PodLoopDone pods true.
Proof.
  unfold settled. intros Hs.
  apply orb_false_elim in Hs as [Hs Hcompl]. apply orb_false_elim in Hs as [Hm Hrun].
  apply negb_false_iff in Hm. cbn [pod_loop]. now rewrite Hm, Hcompl, Hrun.
Qed.

Lemma pod_loop_done `{NodePkg} (imageNames : list string) (items : list Pod) :
  forall pods0 pods : list Pod,
  pod_loop imageNames items pods0 = PodLoopDone pods false ->
  Forall (fun pod => settled imageNames pod = true) items /\
  pods = pods0 ++ List.filter (collected imageNames) items.
Proof.
  induction items as [|pod rest IH]; intros pods0 pods.
  - cbn. intros [= <-]. split; [constructor|now rewrite app_nil_r].
  - destruct (settled imageNames pod) eqn:Hs.
    + rewrite pod_loop_step_settled by assumption. intros Hloop.
      apply IH in Hloop as [Hall ->]. split; [now constructor|].
      rewrite <- app_assoc. f_equal.
      change (pod :: rest) with ([pod] ++ rest). now rewrite List.filter_app.
    + rewrite pod_loop_unsettled by assumption.
      destruct (map_index CriticalStatus (GetPodStatus pod)); discriminate.
Qed.

(** X5. The scan of one List answer stops at the first pod that has a wanted
    image and is neither "Running" nor "Completed": if its status is critical
    the call fails with this pod's name and status, otherwise the poll counts
    as waiting. Pods listed after it are not looked at, so a critical pod
    behind a pending one does not fail the poll. *)
Theorem scan_stops_at_first_unsettled_pod `{NodePkg} (imageNames : list string)
    (before after : list Pod) (pod : Pod) :
  Forall (fun p => settled imageNames p = true) before ->
  settled imageNames pod = false ->
  pod_loop imageNames (before ++ pod :: after) []
  = if map_index CriticalStatus (GetPodStatus pod)
    then PodLoopCritical (Name pod) (GetPodStatus pod)
    else PodLoopDone (List.filter (collected imageNames) before) true.
Proof.
  intros Hbefore Hpod.
  assert (Hgen : forall pods,
             pod_loop imageNames (before ++ pod :: after) pods
             = pod_loop imageNames (pod :: after)
                 (pods ++ List.filter (collected imageNames) before)).
  { induction Hbefore as [|p before Hp _ IH]; intros pods.
    - cbn. now rewrite app_nil_r.
    - cbn [app]. rewrite pod_loop_step_settled, IH by assumption.
      rewrite <- app_assoc. f_equal. f_equal.
      change (p :: before) with ([p] ++ before). now rewrite List.filter_app. }
  rewrite Hgen, pod_loop_unsettled by assumption. reflexivity.
Qed.

Lemma scan_stops_at_first_unsettled_pod_witness :
  pod_loop ["app:v1"] [pod_old; pod_pending_running; pod_crash_loop] []
  = PodLoopDone [pod_old] true.
Proof.
  apply (scan_stops_at_first_unsettled_pod ["app:v1"] [pod_old] [pod_crash_loop]
           pod_pending_running); [repeat constructor|reflexivity].
Defined.

(** ** What GetRunningPodsWithImage returns *)

Lemma images_iteration_returned `{NodePkg} (client : Client) (imageNames : list string)
    (namespace : string) (st : ImagesLoop) (pods : list Pod) (s : Sys) :
  images_iteration client imageNames namespace st = Return (Returned pods, s) ->
  exists podList,
    PodsList client (calls (il_sys st)) namespace "" = ListOk podList /\
    Items podList <> [] /\
    pod_loop imageNames (Items podList) [] = PodLoopDone pods false /\
    (pods <> [] \/ il_minWait st <= 0).
Proof.
  rewrite images_iteration_eq. cbn zeta.
  destruct (PodsList client (calls (il_sys st)) namespace "") as [podList|msg];
    [|discriminate].
  assert (Hne : (0 <? length (Items podList))%nat = true -> Items podList <> []).
  { destruct (Items podList); [discriminate|intros _; discriminate]. }
  destruct (0 <? length (Items podList))%nat; [|discriminate].
  specialize (Hne eq_refl).
  destruct (pod_loop imageNames (Items podList) []) as [name status|pods' wait] eqn:Hscan;
    [discriminate|].
  destruct wait; cbn [negb andb]; [discriminate|].
  destruct (0 <? length pods')%nat eqn:Hlen; cbn [orb].
  - intros [= <- _]. exists podList.
    repeat split; auto. left. intros ->. discriminate Hlen.
  - destruct (Z.leb_spec (il_minWait st) 0); [|discriminate].
    intros [= <- _]. exists podList. repeat split; auto.
Qed.

(** The pass that returns pods: which List call it made, and what is known
    about the two budgets at that point. *)
Lemma images_loop_returned `{NodePkg} (client : Client) (imageNames : list string)
    (namespace : string) (maxWaiting : Duration) (fuel : nat) :
  maxWaiting < 2 ^ 63 ->
  forall (st : ImagesLoop) (pods : list Pod) (s : Sys),
  il_maxWaiting st = maxWaiting - 2 * Second * Z.of_nat (calls (il_sys st)) ->
  il_minWait st = 60 * Second - 2 * Second * Z.of_nat (calls (il_sys st)) ->
  images_loop fuel client imageNames namespace st = Some (Returned pods, s) ->
  exists n podList,
    (calls (il_sys st) <= n)%nat /\ calls s = S n /\
    2 * Second * Z.of_nat n <= maxWaiting /\
    PodsList client n namespace "" = ListOk podList /\
    Items podList <> [] /\
    pod_loop imageNames (Items podList) [] = PodLoopDone pods false /\
    (pods <> [] \/ (30 <= n)%nat).
Proof.
  intros Hmax. induction fuel as [|fuel IH]; intros st pods s Hm Hw; [discriminate|].
  cbn [images_loop]. destruct (Z.leb_spec 0 (il_maxWaiting st)) as [Hge|Hlt];
    [|discriminate].
  destruct (images_iteration client imageNames namespace st) as [st'|[r' s']] eqn:Hit.
  - pose proof (images_iteration_continue _ _ _ _ _ Hit) as Hst'.
    rewrite !budget_decrement in Hst'
      by (change (2 ^ 63) with 9223372036854775808 in *; unfold Second in *; lia).
    intros Hloop. apply IH in Hloop.
    + destruct Hloop as (n & podList & Hn & Hrest). exists n, podList.
      subst st'. cbn [il_sys after_iteration calls] in Hn. split; [lia|exact Hrest].
    + subst st'. cbn [il_maxWaiting il_sys after_iteration calls]. lia.
    + subst st'. cbn [il_minWait il_sys after_iteration calls]. lia.
  - intros [= -> ->]. pose proof (images_iteration_return _ _ _ _ _ _ Hit) as [Hs _].
    apply images_iteration_returned in Hit as (podList & Hlist & Hitems & Hscan & Hwhy).
    exists (calls (il_sys st)), podList. subst s. cbn [after_poll calls].
    repeat split; auto; [lia|].
    destruct Hwhy as [Hpods | Hmin]; [now left|right]. unfold Second in *. lia.
Qed.

Lemma collected_spec `{NodePkg} (imageNames : list string) (pod : Pod) :
  collected imageNames pod = true <->
  matches_image imageNames (Containers (Spec pod)) = true /\ GetPodStatus pod = "Running".
Proof. unfold collected. now rewrite andb_true_iff, String.eqb_eq. Qed.

(** X6. When [GetRunningPodsWithImage] returns pods, they are, in list order,
    exactly the pods of the last List answer that have a wanted image and
    status "Running", and every other pod of that answer with a wanted image
    is "Completed": nothing is returned while a wanted pod is pending or
    critical. *)
Theorem returned_pods_are_the_running_ones `{NodePkg} (client : Client)
    (imageNames : list string) (namespace : string) (maxWaiting : Duration)
    (fuel : nat) (pods : list Pod) (s : Sys) :
  maxWaiting < 2 ^ 63 ->
  GetRunningPodsWithImage fuel client imageNames namespace maxWaiting
    = Some (Returned pods, s) ->
  exists n podList,
    calls s = S n /\
    PodsList client n (effective_namespace client namespace) "" = ListOk podList /\
    pods = List.filter (collected imageNames) (Items podList) /\
    Forall (fun pod => matches_image imageNames (Containers (Spec pod)) = true /\
                       GetPodStatus pod = "Running") pods /\
    Forall (fun pod => matches_image imageNames (Containers (Spec pod)) = true ->
                       GetPodStatus pod = "Running" \/ GetPodStatus pod = "Completed")
           (Items podList).
Proof.
  intros Hmax Hrun. unfold GetRunningPodsWithImage in Hrun.
  apply (images_loop_returned client imageNames _ maxWaiting fuel Hmax) in Hrun;
    [|cbn; lia|reflexivity].
  destruct Hrun as (n & podList & _ & Hs & _ & Hlist & _ & Hscan & _).
  apply pod_loop_done in Hscan as [Hall ->]. cbn [app].
  exists n, podList. repeat split; auto.
  - apply List.Forall_forall. intros pod Hin.
    apply List.filter_In in Hin as [_ Hc]. now apply collected_spec.
  - revert Hall. apply List.Forall_impl. intros pod Hs' Hm.
    destruct (settled_cases imageNames pod Hs' Hm) as [_ [[Hr _] | [_ Hc]]];
      [left|right]; now apply String.eqb_eq.
Qed.

Lemma returned_pods_are_the_running_ones_witness :
  exists n podList,
    calls (after_poll "default" "" sys0) = S n /\
    PodsList (steady_cluster [pod_old; pod_newest_other_image; pod_new]) n
      (effective_namespace (steady_cluster [pod_old; pod_newest_other_image; pod_new]) "")
      "" = ListOk podList /\
    [pod_old; pod_new] = List.filter (collected ["app:v2"; "app:v1"]) (Items podList) /\
    Forall (fun pod => matches_image ["app:v2"; "app:v1"] (Containers (Spec pod)) = true /\
                       GetPodStatus pod = "Running") [pod_old; pod_new] /\
    Forall (fun pod => matches_image ["app:v2"; "app:v1"] (Containers (Spec pod)) = true ->
                       GetPodStatus pod = "Running" \/ GetPodStatus pod = "Completed")
           (Items podList).
Proof.
  apply (returned_pods_are_the_running_ones
           (steady_cluster [pod_old; pod_newest_other_image; pod_new])
           ["app:v2"; "app:v1"] "" 0 1); reflexivity.
Defined.

(** X7. An empty pod list is returned only by the 31st or a later poll, that
    is after the one-minute minimum wait, hence only with a budget of at
    least 60 seconds, and only from a non-empty List answer. *)
Theorem empty_result_needs_a_minute `{NodePkg} (client : Client)
    (imageNames : list string) (namespace : string) (maxWaiting : Duration)
    (fuel : nat) (s : Sys) :
  maxWaiting < 2 ^ 63 ->
  GetRunningPodsWithImage fuel client imageNames namespace maxWaiting
    = Some (Returned [], s) ->
  (31 <= calls s)%nat /\ 60 * Second <= maxWaiting /\
  exists podList,
    PodsList client (calls s - 1) (effective_namespace client namespace) ""
      = ListOk podList /\ Items podList <> [].
Proof.
  intros Hmax Hrun. unfold GetRunningPodsWithImage in Hrun.
  apply (images_loop_returned client imageNames _ maxWaiting fuel Hmax) in Hrun;
    [|cbn; lia|reflexivity].
  destruct Hrun as (n & podList & _ & Hs & Hbudget & Hlist & Hitems & _ & Hwhy).
  destruct Hwhy as [Habs | Hn]; [contradiction|].
  rewrite Hs. split; [lia|]. split; [unfold Second in *; lia|].
  exists podList. replace (S n - 1)%nat with n by lia. now split.
Qed.

Lemma empty_result_needs_a_minute_witness :
  (31 <= 31)%nat /\ 60 * Second <= 60 * Second /\
  exists podList,
    PodsList (steady_cluster [pod_newest_other_image]) (31 - 1)
      (effective_namespace (steady_cluster [pod_newest_other_image]) "") ""
      = ListOk podList /\ Items podList <> [].
Proof.
  refine (empty_result_needs_a_minute (steady_cluster [pod_newest_other_image])
            ["app:v1"] "" (60 * Second) 32
            {| calls := 31; trace := passes_trace "default" "" 30
                                       ++ [EvSleep Second; EvList "default" ""] |} _ _).
  - reflexivity.
  - vm_compute. reflexivity.
Defined.

(** ** GetNewestRunningPod always comes back *)

Lemma newest_loop_terminates `{NodePkg} (clock : Clock) (client : Client)
    (labelSelector : string) (imageSelector : list string) (namespace : string)
    (n : nat) :
  forall st : NewestLoop,
  - 2 ^ 63 + 2 * Second <= nl_maxWaiting st < 2 ^ 63 ->
  (newest_passes (nl_maxWaiting st) <= S n)%nat ->
  exists rs, newest_loop (S n) clock client labelSelector imageSelector namespace st
             = Some rs.
Proof.
  induction n as [|n IH]; intros st Hrange Hn; rewrite newest_loop_S;
    (destruct (newest_iteration clock client labelSelector imageSelector namespace st)
       as [st'|rs] eqn:Hit; [|eauto]);
    apply newest_iteration_continue in Hit; rewrite budget_decrement in Hit by assumption;
    subst st'; cbn [nl_maxWaiting nl_sys];
    (destruct (Z.ltb_spec 0 (nl_maxWaiting st - 2 * Second)) as [Hpos|Hneg]; [|eauto]).
  - rewrite newest_passes_step in Hn by assumption.
    pose proof (newest_passes_pos (nl_maxWaiting st - 2 * Second)). lia.
  - rewrite newest_passes_step in Hn by assumption.
    apply IH; cbn [nl_maxWaiting]; [|lia].
    change (2 ^ 63) with 9223372036854775808 in *. unfold Second in *. lia.
Qed.

Lemma newest_loop_calls `{NodePkg} (clock : Clock) (client : Client)
    (labelSelector : string) (imageSelector : list string) (namespace : string)
    (fuel : nat) :
  forall (st : NewestLoop) (r : Outcome Pod) (s : Sys),
  newest_loop fuel clock client labelSelector imageSelector namespace st = Some (r, s) ->
  (calls (nl_sys st) < calls s)%nat /\
  (- 2 ^ 63 + 2 * Second <= nl_maxWaiting st < 2 ^ 63 ->
   (calls s <= calls (nl_sys st) + newest_passes (nl_maxWaiting st))%nat).
Proof.
  induction fuel as [|fuel IH]; intros st r s; [discriminate|].
  rewrite newest_loop_S.
  destruct (newest_iteration clock client labelSelector imageSelector namespace st)
    as [st'|[r' s']] eqn:Hit.
  - apply newest_iteration_continue in Hit.
    destruct (Z.ltb_spec 0 (nl_maxWaiting st')) as [Hpos|Hneg].
    + intros Hloop. apply IH in Hloop as [Hlt Hle]. subst st'.
      cbn [nl_sys nl_maxWaiting after_iteration calls] in *. split; [lia|].
      intros Hrange. rewrite budget_decrement in Hle, Hpos by assumption.
      rewrite (newest_passes_step (nl_maxWaiting st)) by assumption.
      assert (- 2 ^ 63 + 2 * Second <= nl_maxWaiting st - 2 * Second < 2 ^ 63)
        by (change (2 ^ 63) with 9223372036854775808 in *; unfold Second in *; lia).
      specialize (Hle ltac:(assumption)). lia.
    + intros [= <- <-]. subst st'. cbn [nl_sys after_iteration calls].
      split; [lia|]. intros _. pose proof (newest_passes_pos (nl_maxWaiting st)). lia.
  - intros [= <- <-]. apply newest_iteration_return in Hit as [-> _].
    cbn [after_poll calls]. split; [lia|]. intros _.
    pose proof (newest_passes_pos (nl_maxWaiting st)). lia.
Qed.

(** X8. [GetNewestRunningPod] returns for every budget and whatever the
    cluster answers. It always makes at least one List call, also with a
    zero or negative budget, and with a budget [maxWaiting] that does not
    wrap around it makes at most max(1, ceil(maxWaiting / 2s)) List calls. *)
Theorem newest_always_returns `{NodePkg} (clock : Clock) (client : Client)
    (labelSelector : string) (imageSelector : list string) (namespace : string)
    (maxWaiting : Duration) :
  (exists fuel rs,
     GetNewestRunningPod fuel clock client labelSelector imageSelector namespace maxWaiting
       = Some rs) /\
  (forall fuel r s,
     GetNewestRunningPod fuel clock client labelSelector imageSelector namespace maxWaiting
       = Some (r, s) ->
     (1 <= calls s)%nat /\
     (- 2 ^ 63 + 2 * Second <= maxWaiting < 2 ^ 63 ->
      (calls s <= newest_passes maxWaiting)%nat)).
Proof.
  split.
  - unfold GetNewestRunningPod.
    set (ns := effective_namespace client namespace).
    set (st := {| nl_maxWaiting := maxWaiting; nl_sys := sys0 |}).
    destruct (newest_iteration clock client labelSelector imageSelector ns st)
      as [st'|rs] eqn:Hit.
    + pose proof (newest_iteration_continue _ _ _ _ _ _ _ Hit) as Hst'.
      destruct (Z.ltb_spec 0 (nl_maxWaiting st')) as [Hpos|Hneg].
      * destruct (newest_loop_terminates clock client labelSelector imageSelector ns
                    (newest_passes (nl_maxWaiting st')) st') as [rs Hrs]; [|lia|].
        { subst st'. cbn [nl_maxWaiting] in *.
          pose proof (wrap64_range (nl_maxWaiting st - dur_mul waitingInterval 2)) as Hr.
          unfold dur_sub in *.
          change (2 ^ 63) with 9223372036854775808 in *. unfold Second. lia. }
        exists (S (S (newest_passes (nl_maxWaiting st')))), rs.
        rewrite newest_loop_S, Hit. apply Z.ltb_lt in Hpos. now rewrite Hpos.
      * exists 1%nat. eexists. rewrite newest_loop_S, Hit.
        apply Z.ltb_ge in Hneg. now rewrite Hneg.
    + exists 1%nat, rs. now rewrite newest_loop_S, Hit.
  - intros fuel r s Hrun. unfold GetNewestRunningPod in Hrun.
    apply newest_loop_calls in Hrun. cbn [nl_sys nl_maxWaiting sys0 calls] in Hrun.
    destruct Hrun as [Hlt Hle]. split; [lia|]. intros Hrange.
    specialize (Hle Hrange). lia.
Qed.

Lemma newest_always_returns_witness :
  (1 <= 1)%nat /\
  (- 2 ^ 63 + 2 * Second <= -5 * Second < 2 ^ 63 ->
   (1 <= newest_passes (-5 * Second)%Z)%nat).
Proof.
  apply (proj2 (newest_always_returns exact_clock (steady_cluster [pod_old]) "app=web" []
                  "" (-5 * Second)) 1%nat (Returned pod_old)
           {| calls := 1; trace := [EvSleep Second; EvList "default" "app=web"] |}).
  reflexivity.
Defined.

(** ** The effects of a discovery run *)

Lemma passes_trace_S (namespace labelSelector : string) (k : nat) :
  passes_trace namespace labelSelector (S k)
  = [EvSleep Second; EvList namespace labelSelector; EvSleep Second]
      ++ passes_trace namespace labelSelector k.
Proof. reflexivity. Qed.

Lemma returned_at_not_final `{NodePkg} (clock : Clock) (client : Client)
    (labelSelector : string) (imageSelector : list string) (namespace : string)
    (n : nat) (r : Outcome Pod) :
  returned_at clock client labelSelector imageSelector namespace n r ->
  forall a b, r <> Failed (ErrNoPodFound a b).
Proof.
  unfold returned_at. intros Hret a b ->.
  destruct (PodsList client n namespace labelSelector) as [podList|msg]; [|discriminate].
  destruct Hret as (_ & _ & Hret).
  destruct (select_loop imageSelector (Items podList) None).
  - destruct Hret as [[_ Habs] | [_ Habs]]; discriminate.
  - destruct Hret as [_ Habs]. discriminate.
Qed.

Lemma newest_loop_trace `{NodePkg} (clock : Clock) (client : Client)
    (labelSelector : string) (imageSelector : list string) (namespace : string)
    (fuel : nat) :
  forall (st : NewestLoop) (r : Outcome Pod) (s : Sys),
  newest_loop fuel clock client labelSelector imageSelector namespace st = Some (r, s) ->
  exists k,
    calls s = (calls (nl_sys st) + S k)%nat /\
    ((r = Failed (ErrNoPodFound labelSelector namespace) /\
      trace s = trace (nl_sys st) ++ passes_trace namespace labelSelector (S k)) \/
     (r <> Failed (ErrNoPodFound labelSelector namespace) /\
      trace s = trace (nl_sys st) ++ passes_trace namespace labelSelector k
                  ++ [EvSleep Second; EvList namespace labelSelector])).
Proof.
  induction fuel as [|fuel IH]; intros st r s; [discriminate|].
  rewrite newest_loop_S.
  destruct (newest_iteration clock client labelSelector imageSelector namespace st)
    as [st'|[r' s']] eqn:Hit.
  - apply newest_iteration_continue in Hit.
    destruct (0 <? nl_maxWaiting st').
    + intros Hloop. apply IH in Hloop as (k & Hcalls & Htrace). exists (S k).
      subst st'. cbn [nl_sys after_iteration calls trace] in *. split; [lia|].
      rewrite <- !app_assoc in Htrace. rewrite !passes_trace_S.
      rewrite <- !app_assoc. exact Htrace.
    + intros [= <- <-]. exists 0%nat. subst st'.
      cbn [nl_sys after_iteration calls trace]. split; [lia|]. left.
      split; [reflexivity|]. cbn. reflexivity.
  - intros [= <- <-]. apply newest_iteration_return in Hit as [-> Hret].
    exists 0%nat. cbn [after_poll calls trace]. split; [lia|]. right.
    split; [now apply (returned_at_not_final _ _ _ _ _ _ _ Hret)|reflexivity].
Qed.

Lemma images_loop_trace `{NodePkg} (client : Client) (imageNames : list string)
    (namespace : string) (fuel : nat) :
  forall (st : ImagesLoop) (r : Outcome (list Pod)) (s : Sys),
  images_loop fuel client imageNames namespace st = Some (r, s) ->
  exists k,
    (r = Failed (ErrWaitTimedOut imageNames namespace) /\
     calls s = (calls (il_sys st) + k)%nat /\
     trace s = trace (il_sys st) ++ passes_trace namespace "" k) \/
    (r <> Failed (ErrWaitTimedOut imageNames namespace) /\
     calls s = (calls (il_sys st) + S k)%nat /\
     trace s = trace (il_sys st) ++ passes_trace namespace "" k
                 ++ [EvSleep Second; EvList namespace ""]).
Proof.
  induction fuel as [|fuel IH]; intros st r s; [discriminate|].
  cbn [images_loop]. destruct (0 <=? il_maxWaiting st).
  - destruct (images_iteration client imageNames namespace st) as [st'|[r' s']] eqn:Hit.
    + apply images_iteration_continue in Hit. intros Hloop.
      apply IH in Hloop as (k & Hk). exists (S k). subst st'.
      cbn [il_sys after_iteration calls trace] in Hk.
      rewrite <- !app_assoc in Hk. rewrite !passes_trace_S, <- !app_assoc.
      destruct Hk as [(Hr & Hcalls & Htrace) | (Hr & Hcalls & Htrace)];
        [left|right]; repeat split; auto; lia.
    + intros [= <- <-]. apply images_iteration_return in Hit as [-> Hr].
      exists 0%nat. right. cbn [after_poll calls trace]. repeat split; auto; lia.
  - intros [= <- <-]. exists 0%nat. left. cbn. rewrite app_nil_r.
    repeat split; auto.
Qed.

(** X9. Whatever the cluster answers, the effects of a discovery run are a
    number of complete passes (sleep one second, List, sleep one second)
    followed, unless the run ended with its final timeout error, by one more
    sleep and List. Hence two List calls are always two seconds of sleep
    apart, every List call goes to the namespace in use (the client's one
    when none is given), and [GetRunningPodsWithImage] lists with an empty
    label selector. *)
Theorem discovery_effects `{NodePkg} (clock : Clock) (client : Client)
    (imageNames : list string) (labelSelector : string) (imageSelector : list string)
    (namespace : string) (maxWaiting : Duration) :
  let ns := effective_namespace client namespace in
  (forall fuel r s,
     GetRunningPodsWithImage fuel client imageNames namespace maxWaiting = Some (r, s) ->
     exists k,
       (r = Failed (ErrWaitTimedOut imageNames ns) /\ calls s = k /\
        trace s = passes_trace ns "" k) \/
       (r <> Failed (ErrWaitTimedOut imageNames ns) /\ calls s = S k /\
        trace s = passes_trace ns "" k ++ [EvSleep Second; EvList ns ""])) /\
  (forall fuel r s,
     GetNewestRunningPod fuel clock client labelSelector imageSelector namespace maxWaiting
       = Some (r, s) ->
     exists k,
       calls s = S k /\
       ((r = Failed (ErrNoPodFound labelSelector ns) /\
         trace s = passes_trace ns labelSelector (S k)) \/
        (r <> Failed (ErrNoPodFound labelSelector ns) /\
         trace s = passes_trace ns labelSelector k
                     ++ [EvSleep Second; EvList ns labelSelector]))).
Proof.
  intros ns. split.
  - intros fuel r s Hrun. unfold GetRunningPodsWithImage in Hrun.
    apply images_loop_trace in Hrun as (k & Hk). exists k. exact Hk.
  - intros fuel r s Hrun. unfold GetNewestRunningPod in Hrun.
    apply newest_loop_trace in Hrun as (k & Hk). exists k. exact Hk.
Qed.

Lemma discovery_effects_witness :
  exists k,
    calls (after_poll "dev" "" sys0) = S k /\
    ((Failed (ErrSelectedCannotStart "CrashLoopBackOff")
      = @Failed Pod (ErrNoPodFound "" "dev") /\
      trace (after_poll "dev" "" sys0) = passes_trace "dev" "" (S k)) \/
     (Failed (ErrSelectedCannotStart "CrashLoopBackOff")
      <> @Failed Pod (ErrNoPodFound "" "dev") /\
      trace (after_poll "dev" "" sys0)
      = passes_trace "dev" "" k ++ [EvSleep Second; EvList "dev" ""])).
Proof.
  apply (proj2 (discovery_effects exact_clock (steady_cluster [pod_crash_loop]) [] ""
                  [] "dev" 0) 1%nat (Failed (ErrSelectedCannotStart "CrashLoopBackOff"))).
  reflexivity.
Defined.

(** ** Errors of the List call *)

Lemma newest_iteration_continue_ok `{NodePkg} (clock : Clock) (client : Client)
    (labelSelector : string) (imageSelector : list string) (namespace : string)
    (st st' : NewestLoop) :
  newest_iteration clock client labelSelector imageSelector namespace st = Continue st' ->
  exists podList, PodsList client (calls (nl_sys st)) namespace labelSelector = ListOk podList.
Proof.
  rewrite newest_iteration_eq. cbn zeta.
  destruct (PodsList client (calls (nl_sys st)) namespace labelSelector) as [podList|msg];
    [eauto|discriminate].
Qed.

Lemma images_iteration_continue_ok `{NodePkg} (client : Client)
    (imageNames : list string) (namespace : string) (st st' : ImagesLoop) :
  images_iteration client imageNames namespace st = Continue st' ->
  exists podList, PodsList client (calls (il_sys st)) namespace "" = ListOk podList.
Proof.
  rewrite images_iteration_eq. cbn zeta.
  destruct (PodsList client (calls (il_sys st)) namespace "") as [podList|msg];
    [eauto|discriminate].
Qed.

Lemma images_iteration_api `{NodePkg} (client : Client)
    (imageNames : list string) (namespace : string) (st : ImagesLoop)
    (r : Outcome (list Pod)) (s : Sys) :
  images_iteration client imageNames namespace st = Return (r, s) ->
  forall msg, r = Failed (ApiError msg) <->
              PodsList client (calls (il_sys st)) namespace "" = ListErr msg.
Proof.
  rewrite images_iteration_eq. cbn zeta.
  destruct (PodsList client (calls (il_sys st)) namespace "") as [podList|msg'].
  - repeat match goal with
           | |- context [match ?x with _ => _ end] => destruct x
           end; intros [= <- <-] msg; split; discriminate.
  - intros [= <- <-] msg. split; congruence.
Qed.

Lemma newest_loop_api `{NodePkg} (clock : Clock) (client : Client)
    (labelSelector : string) (imageSelector : list string) (namespace : string)
    (fuel : nat) :
  forall (st : NewestLoop) (r : Outcome Pod) (s : Sys),
  newest_loop fuel clock client labelSelector imageSelector namespace st = Some (r, s) ->
  (calls (nl_sys st) < calls s)%nat /\
  (forall n, (calls (nl_sys st) <= n)%nat -> (S n < calls s)%nat ->
             exists podList, PodsList client n namespace labelSelector = ListOk podList) /\
  (forall msg, r = Failed (ApiError msg) <->
               PodsList client (calls s - 1) namespace labelSelector = ListErr msg).
Proof.
  induction fuel as [|fuel IH]; intros st r s; [discriminate|].
  rewrite newest_loop_S.
  destruct (newest_iteration clock client labelSelector imageSelector namespace st)
    as [st'|[r' s']] eqn:Hit.
  - destruct (newest_iteration_continue_ok _ _ _ _ _ _ _ Hit) as [podList Hok].
    apply newest_iteration_continue in Hit.
    destruct (0 <? nl_maxWaiting st').
    + intros Hloop. apply IH in Hloop as (Hlt & Hearlier & Hlast). subst st'.
      cbn [nl_sys after_iteration calls] in *. split; [lia|]. split; [|exact Hlast].
      intros n Hge Hn. destruct (decide (n = calls (nl_sys st))) as [->|Hne]; [eauto|].
      apply Hearlier; lia.
    + intros [= <- <-]. subst st'. cbn [nl_sys after_iteration calls].
      split; [lia|]. split; [intros n; lia|].
      intros msg. replace (S (calls (nl_sys st)) - 1)%nat with (calls (nl_sys st)) by lia.
      rewrite Hok. split; discriminate.
  - intros [= <- <-]. apply newest_iteration_return in Hit as [-> Hret].
    cbn [after_poll calls]. split; [lia|]. split; [intros n; lia|].
    intros msg. replace (S (calls (nl_sys st)) - 1)%nat with (calls (nl_sys st)) by lia.
    unfold returned_at in Hret.
    destruct (PodsList client (calls (nl_sys st)) namespace labelSelector) as [podList|msg'].
    + destruct Hret as (_ & _ & Hret).
      destruct (select_loop imageSelector (Items podList) None).
      * destruct Hret as [[_ ->] | [_ ->]]; split; discriminate.
      * destruct Hret as [_ ->]. split; discriminate.
    + subst r'. split; congruence.
Qed.

Lemma images_loop_api `{NodePkg} (client : Client) (imageNames : list string)
    (namespace : string) (fuel : nat) :
  forall (st : ImagesLoop) (r : Outcome (list Pod)) (s : Sys),
  images_loop fuel client imageNames namespace st = Some (r, s) ->
  (calls (il_sys st) <= calls s)%nat /\
  (forall n, (calls (il_sys st) <= n)%nat -> (S n < calls s)%nat ->
             exists podList, PodsList client n namespace "" = ListOk podList) /\
  (forall msg, r = Failed (ApiError msg) ->
               (calls (il_sys st) < calls s)%nat /\
               PodsList client (calls s - 1) namespace "" = ListErr msg) /\
  (forall msg, (calls (il_sys st) < calls s)%nat ->
               PodsList client (calls s - 1) namespace "" = ListErr msg ->
               r = Failed (ApiError msg)).
Proof.
  induction fuel as [|fuel IH]; intros st r s; [discriminate|].
  cbn [images_loop]. destruct (0 <=? il_maxWaiting st).
  - destruct (images_iteration client imageNames namespace st) as [st'|[r' s']] eqn:Hit.
    + destruct (images_iteration_continue_ok _ _ _ _ _ Hit) as [podList Hok].
      apply images_iteration_continue in Hit. intros Hloop.
      apply IH in Hloop as (Hle & Hearlier & Hfail & Hlast). subst st'.
      cbn [il_sys after_iteration calls] in *. split; [lia|]. split; [|split].
      * intros n Hge Hn. destruct (decide (n = calls (il_sys st))) as [->|Hne]; [eauto|].
        apply Hearlier; lia.
      * intros msg Hr. destruct (Hfail msg Hr) as [Hlt Herr]. split; [lia|exact Herr].
      * intros msg Hlt Herr.
        destruct (decide (calls s = S (calls (il_sys st)))) as [Heq|Hne].
        -- rewrite Heq in Herr.
           replace (S (calls (il_sys st)) - 1)%nat with (calls (il_sys st)) in Herr by lia.
           congruence.
        -- apply Hlast; [lia|exact Herr].
    + intros [= <- <-]. pose proof (images_iteration_return _ _ _ _ _ _ Hit) as [-> _].
      pose proof (images_iteration_api _ _ _ _ _ _ Hit) as Hapi.
      cbn [after_poll calls].
      replace (S (calls (il_sys st)) - 1)%nat with (calls (il_sys st)) by lia.
      split; [lia|]. split; [intros n; lia|]. split.
      * intros msg Hr. split; [lia|now apply Hapi].
      * intros msg _ Herr. now apply Hapi.
  - intros [= <- <-]. split; [lia|]. split; [intros n; lia|].
    split; [discriminate|]. intros msg Hlt. lia.
Qed.

(** X10. Neither discovery loop retries after a failed List call, and neither
    invents an API error: every List call before the last one of a run was
    answered without error, and the run ends with the API error [msg] exactly
    when its last List call failed with [msg]. *)
Theorem api_errors_end_the_run `{NodePkg} (clock : Clock) (client : Client)
    (imageNames : list string) (labelSelector : string) (imageSelector : list string)
    (namespace : string) (maxWaiting : Duration) :
  let ns := effective_namespace client namespace in
  (forall fuel r s,
     GetRunningPodsWithImage fuel client imageNames namespace maxWaiting = Some (r, s) ->
     (forall n, (S n < calls s)%nat -> exists podList, PodsList client n ns "" = ListOk podList) /\
     (forall msg, r = Failed (ApiError msg) <->
                  (0 < calls s)%nat /\ PodsList client (calls s - 1) ns "" = ListErr msg)) /\
  (forall fuel r s,
     GetNewestRunningPod fuel clock client labelSelector imageSelector namespace maxWaiting
       = Some (r, s) ->
     (forall n, (S n < calls s)%nat ->
                exists podList, PodsList client n ns labelSelector = ListOk podList) /\
     (forall msg, r = Failed (ApiError msg) <->
                  PodsList client (calls s - 1) ns labelSelector = ListErr msg)).
Proof.
  intros ns. split.
  - intros fuel r s Hrun. unfold GetRunningPodsWithImage in Hrun.
    apply images_loop_api in Hrun as (_ & Hearlier & Hfail & Hlast).
    cbn [il_sys sys0 calls] in *. split.
    + intros n Hn. apply Hearlier; lia.
    + intros msg. split; [apply Hfail|]. intros [Hpos Herr]. now apply Hlast.
  - intros fuel r s Hrun. unfold GetNewestRunningPod in Hrun.
    apply newest_loop_api in Hrun as (_ & Hearlier & Hlast).
    cbn [nl_sys sys0 calls] in *. split; [|exact Hlast].
    intros n Hn. apply Hearlier; lia.
Qed.

Lemma api_errors_end_the_run_witness :
  exists podList, PodsList empty_cluster 1 "default" "app=web" = ListOk podList.
Proof.
  apply (proj1 (proj2 (api_errors_end_the_run exact_clock empty_cluster [] "app=web"
                  ["app:v1"] "" (5 * Second)) 4%nat
                  (Failed (ErrNoPodFound "app=web" "default"))
                  {| calls := 3; trace := passes_trace "default" "app=web" 3 |} eq_refl)
           1%nat).
  cbn. lia.
Defined.

(** ** Pods that are being deleted *)

Lemma GetPodStatus_deleted `{NodePkg} (pod : Pod) :
  DeletionTimestamp pod <> None ->
  GetPodStatus pod
  = if String.eqb (Reason (Status pod)) NodeUnreachablePodReason
    then "Unknown" else "Terminating".
Proof.
  intros Hdel. unfold GetPodStatus.
  destruct (init_loop _ _ _ _) as [reason initializing].
  destruct (DeletionTimestamp pod); [reflexivity|contradiction].
Qed.

(** X11. A pod with a deletion timestamp never ends a discovery run with
    success. Selected as the newest candidate, it keeps
    [GetNewestRunningPod] polling, or fails the call with status "Unknown"
    when its node is unreachable; with a wanted image, it makes
    [GetRunningPodsWithImage] wait, or fail with status "Unknown", as soon as
    the scan reaches it. *)
Theorem deleted_pods_in_discovery `{NodePkg} (pod : Pod) :
  DeletionTimestamp pod <> None ->
  (forall clock client labelSelector imageSelector namespace st podList,
     PodsList client (calls (nl_sys st)) namespace labelSelector = ListOk podList ->
     0 < Size podList ->
     select_loop imageSelector (Items podList) None = Some pod ->
     newest_iteration clock client labelSelector imageSelector namespace st
     = if String.eqb (Reason (Status pod)) NodeUnreachablePodReason
       then Return (Failed (ErrSelectedCannotStart "Unknown"),
                    after_poll namespace labelSelector (nl_sys st))
       else Continue {| nl_maxWaiting :=
                          dur_sub (nl_maxWaiting st) (dur_mul waitingInterval 2);
                        nl_sys := after_iteration namespace labelSelector (nl_sys st) |}) /\
  (forall imageNames before after,
     matches_image imageNames (Containers (Spec pod)) = true ->
     Forall (fun p => settled imageNames p = true) before ->
     pod_loop imageNames (before ++ pod :: after) []
     = if String.eqb (Reason (Status pod)) NodeUnreachablePodReason
       then PodLoopCritical (Name pod) "Unknown"
       else PodLoopDone (List.filter (collected imageNames) before) true).
Proof.
  intros Hdel. pose proof (GetPodStatus_deleted pod Hdel) as Hstatus. split.
  - intros clock client labelSelector imageSelector namespace st podList Hlist Hsize Hsel.
    rewrite newest_iteration_eq. cbn zeta. rewrite Hlist, Hsel.
    apply Z.ltb_lt in Hsize. rewrite Hsize.
    assert (Hitems : (0 <? length (Items podList))%nat = true).
    { destruct (Items podList); [discriminate Hsel|reflexivity]. }
    rewrite Hitems, Hstatus. cbn [andb].
    destruct (String.eqb (Reason (Status pod)) NodeUnreachablePodReason); reflexivity.
  - intros imageNames before after Hm Hbefore.
    assert (Hgen : forall pods,
               pod_loop imageNames (before ++ pod :: after) pods
               = pod_loop imageNames (pod :: after)
                   (pods ++ List.filter (collected imageNames) before)).
    { induction Hbefore as [|p before Hp _ IH]; intros pods.
      - cbn. now rewrite app_nil_r.
      - cbn [app]. rewrite pod_loop_step_settled, IH by assumption.
        rewrite <- app_assoc. f_equal. f_equal.
        change (p :: before) with ([p] ++ before). now rewrite List.filter_app. }
    rewrite Hgen. cbn [pod_loop app]. rewrite Hm, Hstatus.
    destruct (String.eqb (Reason (Status pod)) NodeUnreachablePodReason); reflexivity.
Qed.

Lemma deleted_pods_in_discovery_witness :
  pod_loop ["app:v1"] ([pod_old] ++ pod_deleted :: [pod_new]) []
  = PodLoopDone [pod_old] true.
Proof.
  apply (proj2 (deleted_pods_in_discovery pod_deleted ltac:(discriminate)) ["app:v1"]
           [pod_old] [pod_new]); [reflexivity|repeat constructor].
Defined.

(** * Properties of the pull secret reconciliation *)

Lemma found_spec (secrets : list LocalObjectReference) (name : string) :
  existsb (fun pullSecret => String.eqb (RefName pullSecret) name) secrets = true
  <-> In name (map RefName secrets).
Proof.
  rewrite existsb_exists, in_map_iff. split.
  - intros (ref & Hin & Heq). apply String.eqb_eq in Heq. eauto.
  - intros (ref & Heq & Hin). exists ref. split; [assumption|]. now apply String.eqb_eq.
Qed.

(** What the loop over the requested names leaves in the account. *)
Lemma secret_fold_spec (pullSecrets : list string) :
  forall (secrets : list LocalObjectReference) (changed : bool),
  exists added,
    fold_left secret_step pullSecrets (secrets, changed)
    = (secrets ++ added, changed || negb (forallb (fun _ => false) added)) /\
    List.NoDup (map RefName added) /\
    (forall name, In name (map RefName added)
                  <-> In name pullSecrets /\ ~ In name (map RefName secrets)).
Proof.
  induction pullSecrets as [|name rest IH]; intros secrets changed.
  - exists []. cbn. rewrite app_nil_r, orb_false_r.
    split; [reflexivity|]. split; [constructor|]. intros n. tauto.
  - cbn [fold_left secret_step].
    destruct (existsb _ secrets) eqn:Hfound; cbn [negb].
    + apply found_spec in Hfound.
      destruct (IH secrets changed) as (added & -> & Hnodup & Hnames).
      exists added. split; [reflexivity|]. split; [assumption|].
      intros n. rewrite Hnames. cbn [In]. split; [tauto|].
      intros [[<- | Hin] Hnot]; [contradiction|tauto].
    + assert (Hnew : ~ In name (map RefName secrets)).
      { intros Hin. apply found_spec in Hin. congruence. }
      destruct (IH (secrets ++ [{| RefName := name |}]) true)
        as (added & -> & Hnodup & Hnames).
      exists ({| RefName := name |} :: added). rewrite <- app_assoc. cbn [app forallb andb negb].
      rewrite orb_true_r. split; [reflexivity|]. cbn [map RefName].
      assert (Hfresh : ~ In name (map RefName added)).
      { rewrite Hnames, map_app, in_app_iff. cbn. tauto. }
      split; [now constructor|].
      intros n. cbn [In]. rewrite Hnames, map_app, in_app_iff. cbn [map RefName In].
      destruct (decide (name = n)) as [->|Hne]; [tauto|]. tauto.
Qed.

(** X12. With the default service account at hand, the reconciliation keeps
    its pull secrets in place and appends each requested name that is missing
    exactly once; it calls Update, with that account, exactly when something
    was appended, and its only error is the wrapped error of this Update. *)
Theorem pull_secrets_are_merged (client : Client) (api : ServiceAccounts)
    (pullSecrets : list string) (account : ServiceAccount) :
  ServiceAccountsGet api (Namespace client) "default" = inl account ->
  exists added,
    List.NoDup (map RefName added) /\
    (forall name, In name (map RefName added)
                  <-> In name pullSecrets
                      /\ ~ In name (map RefName (ImagePullSecrets account))) /\
    (forall name, In name pullSecrets ->
                  In name (map RefName (ImagePullSecrets account ++ added))) /\
    addPullSecretsToServiceAccount client api pullSecrets
    = match added with
      | [] => (None, [EvAccountGet (Namespace client) "default"])
      | _ :: _ =>
        let updated := {| ImagePullSecrets := ImagePullSecrets account ++ added |} in
        (ErrWrap "update service account"
           <$> ServiceAccountsUpdate api (Namespace client) updated,
         [EvAccountGet (Namespace client) "default";
          EvAccountUpdate (Namespace client) updated])
      end.
Proof.
  intros Hget. unfold addPullSecretsToServiceAccount. rewrite Hget.
  destruct (secret_fold_spec pullSecrets (ImagePullSecrets account) false)
    as (added & -> & Hnodup & Hnames).
  exists added. split; [assumption|]. split; [assumption|]. split.
  - intros name Hin. rewrite map_app, in_app_iff.
    destruct (in_dec String.string_dec name (map RefName (ImagePullSecrets account)));
      [now left|right]. now apply Hnames.
  - destruct added; reflexivity.
Qed.

Lemma pull_secrets_are_merged_witness :
  exists added,
    List.NoDup (map RefName added) /\
    (forall name, In name (map RefName added)
                  <-> In name ["gcr"; "quay"; "quay"] /\ ~ In name ["hub"; "gcr"]) /\
    (forall name, In name ["gcr"; "quay"; "quay"] ->
                  In name (map RefName ([{| RefName := "hub" |}; {| RefName := "gcr" |}]
                                          ++ added))) /\
    addPullSecretsToServiceAccount empty_cluster two_secrets ["gcr"; "quay"; "quay"]
    = match added with
      | [] => (None, [EvAccountGet "default" "default"])
      | _ :: _ =>
        let updated := {| ImagePullSecrets :=
                            [{| RefName := "hub" |}; {| RefName := "gcr" |}] ++ added |} in
        (ErrWrap "update service account"
           <$> ServiceAccountsUpdate two_secrets "default" updated,
         [EvAccountGet "default" "default"; EvAccountUpdate "default" updated])
      end.
Proof.
  apply (pull_secrets_are_merged empty_cluster two_secrets ["gcr"; "quay"; "quay"]
           {| ImagePullSecrets := [{| RefName := "hub" |}; {| RefName := "gcr" |}] |}).
  reflexivity.
Defined.

Example pull_secrets_run :
  addPullSecretsToServiceAccount empty_cluster two_secrets ["gcr"; "quay"; "quay"]
  = (None,
     [EvAccountGet "default" "default";
      EvAccountUpdate "default"
        {| ImagePullSecrets := [{| RefName := "hub" |}; {| RefName := "gcr" |};
                                {| RefName := "quay" |}] |}]).
Proof. reflexivity. Qed.

Lemma secret_fold_present (pullSecrets : list string) :
  forall (secrets : list LocalObjectReference) (changed : bool),
  (forall name, In name pullSecrets -> In name (map RefName secrets)) ->
  fold_left secret_step pullSecrets (secrets, changed) = (secrets, changed).
Proof.
  induction pullSecrets as [|name rest IH]; intros secrets changed Hall; [reflexivity|].
  cbn [fold_left secret_step].
  assert (Hfound : existsb (fun ref => String.eqb (RefName ref) name) secrets = true).
  { apply found_spec, Hall. now left. }
  rewrite Hfound. cbn [negb]. apply IH. intros n Hn. apply Hall. now right.
Qed.

(** X13. The reconciliation is idempotent: run against a service account
    that already holds every requested pull secret, in particular the account
    that an earlier run with the same names sent to Update, it calls no
    Update and returns without error. *)
Theorem pull_secrets_idempotent (client : Client) (api api' : ServiceAccounts)
    (pullSecrets : list string) (account : ServiceAccount) :
  (forall name, In name pullSecrets -> In name (map RefName (ImagePullSecrets account))) \/
  (exists before,
     ServiceAccountsGet api (Namespace client) "default" = inl before /\
     In (EvAccountUpdate (Namespace client) account)
        (snd (addPullSecretsToServiceAccount client api pullSecrets))) ->
  ServiceAccountsGet api' (Namespace client) "default" = inl account ->
  addPullSecretsToServiceAccount client api' pullSecrets
  = (None, [EvAccountGet (Namespace client) "default"]).
Proof.
  intros Hhas Hget.
  assert (Hall : forall name, In name pullSecrets ->
                              In name (map RefName (ImagePullSecrets account))).
  { destruct Hhas as [Hall | (before & Hbefore & Hupd)]; [exact Hall|].
    unfold addPullSecretsToServiceAccount in Hupd. rewrite Hbefore in Hupd.
    destruct (secret_fold_spec pullSecrets (ImagePullSecrets before) false)
      as (added & Hfold & _ & Hnames).
    rewrite Hfold in Hupd.
    destruct (false || negb (forallb (fun _ => false) added)); cbn in Hupd.
    - destruct Hupd as [Habs | [[= <-] | []]]; [discriminate|].
      intros name Hin. cbn [ImagePullSecrets]. rewrite map_app, in_app_iff.
      destruct (in_dec String.string_dec name (map RefName (ImagePullSecrets before)));
        [now left|right]. now apply Hnames.
    - destruct Hupd as [Habs | []]. discriminate. }
  unfold addPullSecretsToServiceAccount. rewrite Hget.
  now rewrite secret_fold_present.
Qed.

Lemma pull_secrets_idempotent_witness :
  addPullSecretsToServiceAccount empty_cluster two_secrets ["gcr"; "hub"; "gcr"]
  = (None, [EvAccountGet "default" "default"]).
Proof.
  apply (pull_secrets_idempotent empty_cluster two_secrets two_secrets ["gcr"; "hub"; "gcr"]
           {| ImagePullSecrets := [{| RefName := "hub" |}; {| RefName := "gcr" |}] |});
    [|reflexivity].
  left. intros name Hin. cbn in *. tauto.
Defined.

(** X14. The reconciliation fails only when its Update call fails. When the
    Get of the default service account fails, the run makes no Update call:
    it logs the error "Couldn't find service account 'default' in namespace
    '<namespace>': <error>" and returns nil. That error line is logged in no
    other run. An error returned is the error of the one Update call,
    wrapped as "update service account". *)
Theorem pull_secrets_fail_only_on_update (client : Client) (api : ServiceAccounts)
    (pullSecrets : list string) (r : option RegistryError) (events : list RegistryEvent) :
  addPullSecretsToServiceAccount client api pullSecrets = (r, events) ->
  (forall err,
     ServiceAccountsGet api (Namespace client) "default" = inr err ->
     r = None /\
     events = [EvAccountGet (Namespace client) "default";
               EvLogError ("Couldn't find service account 'default' in namespace '"
                           +:+ Namespace client +:+ "': " +:+ err)]) /\
  (forall line,
     In (EvLogError line) events ->
     exists err,
       ServiceAccountsGet api (Namespace client) "default" = inr err /\
       line = "Couldn't find service account 'default' in namespace '"
                +:+ Namespace client +:+ "': " +:+ err) /\
  (forall e,
     r = Some e ->
     exists account updated msg,
       ServiceAccountsGet api (Namespace client) "default" = inl account /\
       events = [EvAccountGet (Namespace client) "default";
                 EvAccountUpdate (Namespace client) updated] /\
       ServiceAccountsUpdate api (Namespace client) updated = Some msg /\
       e = ErrWrap "update service account" msg /\
       RegistryError_message e = "update service account: " +:+ msg).
Proof.
  unfold addPullSecretsToServiceAccount.
  destruct (ServiceAccountsGet api (Namespace client) "default") as [account|err].
  - destruct (fold_left secret_step pullSecrets (ImagePullSecrets account, false))
      as [secrets changed].
    destruct changed.
    + intros [= <- <-]. split; [discriminate|]. split.
      * intros line [Hin | [Hin | []]]; discriminate.
      * intros e He.
        destruct (ServiceAccountsUpdate api (Namespace client)
                    {| ImagePullSecrets := secrets |}) as [msg|] eqn:Hupd;
          [|discriminate].
        injection He as <-. exists account, {| ImagePullSecrets := secrets |}, msg.
        repeat split; auto.
    + intros [= <- <-]. split; [discriminate|]. split.
      * intros line [Hin | []]. discriminate.
      * discriminate.
  - intros [= <- <-]. split; [|split].
    + intros err' [= <-]. split; reflexivity.
    + intros line [Hin | [[= <-] | []]]; [discriminate|]. now exists err.
    + discriminate.
Qed.

Lemma pull_secrets_fail_only_on_update_witness :
  (fst (addPullSecretsToServiceAccount empty_cluster no_default_account ["quay"]) = None /\
   snd (addPullSecretsToServiceAccount empty_cluster no_default_account ["quay"])
   = [EvAccountGet "default" "default";
      EvLogError ("Couldn't find service account 'default' in namespace '"
                  +:+ "default" +:+ "': " +:+ "serviceaccounts default not found")]) /\
  (exists account updated msg,
     ServiceAccountsGet read_only_accounts "default" "default" = inl account /\
     snd (addPullSecretsToServiceAccount empty_cluster read_only_accounts ["quay"])
     = [EvAccountGet "default" "default"; EvAccountUpdate "default" updated] /\
     ServiceAccountsUpdate read_only_accounts "default" updated = Some msg /\
     ErrWrap "update service account" "forbidden" = ErrWrap "update service account" msg /\
     RegistryError_message (ErrWrap "update service account" "forbidden")
     = "update service account: " +:+ msg).
Proof.
  split.
  - apply (pull_secrets_fail_only_on_update empty_cluster no_default_account ["quay"]
             (fst (addPullSecretsToServiceAccount empty_cluster no_default_account ["quay"]))
             (snd (addPullSecretsToServiceAccount empty_cluster no_default_account ["quay"])));
      reflexivity.
  - apply (pull_secrets_fail_only_on_update empty_cluster read_only_accounts ["quay"]
             (fst (addPullSecretsToServiceAccount empty_cluster read_only_accounts ["quay"]))
             (snd (addPullSecretsToServiceAccount empty_cluster read_only_accounts ["quay"])));
      reflexivity.
Defined.

(** * Properties of the setup helpers *)

(** ** Strings *)

Lemma str_app_cons (x : Ascii.ascii) (a b : string) :
  String x a +:+ b = String x (a +:+ b).
Proof. reflexivity. Qed.

Lemma str_app_assoc (a b c : string) : (a +:+ b) +:+ c = a +:+ (b +:+ c).
Proof.
  induction a as [|x a IH]; [reflexivity|].
  rewrite !str_app_cons. f_equal. exact IH.
Qed.

Lemma str_app_nil_r (a : string) : a +:+ "" = a.
Proof.
  induction a as [|x a IH]; [reflexivity|].
  rewrite str_app_cons. f_equal. exact IH.
Qed.

Lemma str_length_app (a b : string) :
  String.length (a +:+ b) = (String.length a + String.length b)%nat.
Proof.
  induction a as [|x a IH]; [reflexivity|].
  rewrite str_app_cons. cbn [String.length Nat.add]. f_equal. exact IH.
Qed.

Lemma str_app_inj_r (a b c : string) : a +:+ c = b +:+ c -> a = b.
Proof.
  revert b. induction a as [|x a IH]; intros [|y b] Heq.
  - reflexivity.
  - apply (f_equal String.length) in Heq. rewrite !str_length_app in Heq.
    cbn [String.length] in Heq. lia.
  - apply (f_equal String.length) in Heq. rewrite !str_length_app in Heq.
    cbn [String.length] in Heq. lia.
  - rewrite !str_app_cons in Heq. injection Heq as -> Heq. f_equal. now apply IH.
Qed.

Lemma substring_0_0 (s : string) : String.substring 0 0 s = "".
Proof. destruct s; reflexivity. Qed.

Lemma substring_all (s : string) : String.substring 0 (String.length s) s = s.
Proof. induction s as [|x s IH]; cbn; [reflexivity|now rewrite IH]. Qed.

Lemma substring_prefix (a b : string) :
  String.substring 0 (String.length a) (a +:+ b) = a.
Proof.
  induction a as [|x a IH]; [apply substring_0_0|].
  rewrite str_app_cons. cbn [String.length String.substring]. f_equal. exact IH.
Qed.

Lemma substring_suffix (a b : string) :
  String.substring (String.length a) (String.length b) (a +:+ b) = b.
Proof.
  induction a as [|x a IH]; [apply substring_all|].
  rewrite str_app_cons. cbn [String.length String.substring]. exact IH.
Qed.

Lemma substring_split (n : nat) :
  forall s : string,
  (n <= String.length s)%nat ->
  s = String.substring 0 n s +:+ String.substring n (String.length s - n) s.
Proof.
  induction n as [|n IH]; intros s Hn.
  - rewrite substring_0_0, Nat.sub_0_r, substring_all. reflexivity.
  - destruct s as [|x s]; cbn in Hn; [lia|].
    cbn [String.length String.substring Nat.sub]. rewrite str_app_cons.
    f_equal. apply IH. lia.
Qed.

Lemma HasSuffix_app (pre suffix : string) :
  strings_HasSuffix (pre +:+ suffix) suffix = true.
Proof.
  unfold strings_HasSuffix. rewrite str_length_app.
  replace (String.length pre + String.length suffix - String.length suffix)%nat
    with (String.length pre) by lia.
  rewrite substring_suffix, String.eqb_refl, andb_true_r.
  apply Nat.leb_le. lia.
Qed.

Lemma HasSuffix_inv (s suffix : string) :
  strings_HasSuffix s suffix = true -> exists pre, s = pre +:+ suffix.
Proof.
  unfold strings_HasSuffix. intros Hs. apply andb_prop in Hs as [Hlen Heq].
  apply Nat.leb_le in Hlen. apply String.eqb_eq in Heq.
  exists (String.substring 0 (String.length s - String.length suffix) s).
  pose proof (substring_split (String.length s - String.length suffix) s ltac:(lia))
    as Hsplit.
  replace (String.length s - (String.length s - String.length suffix))%nat
    with (String.length suffix) in Hsplit by lia.
  now rewrite Heq in Hsplit.
Qed.

Lemma TrimSuffix_app (pre suffix : string) :
  strings_TrimSuffix (pre +:+ suffix) suffix = pre.
Proof.
  unfold strings_TrimSuffix. rewrite HasSuffix_app, str_length_app.
  replace (String.length pre + String.length suffix - String.length suffix)%nat
    with (String.length pre) by lia.
  apply substring_prefix.
Qed.

Lemma TrimSuffix_none (s suffix : string) :
  (forall pre, s <> pre +:+ suffix) -> strings_TrimSuffix s suffix = s.
Proof.
  intros Hno. unfold strings_TrimSuffix.
  destruct (strings_HasSuffix s suffix) eqn:Hs; [|reflexivity].
  apply HasSuffix_inv in Hs as [pre ->]. now specialize (Hno pre).
Qed.

(** ** The account name read from gcloud *)

Lemma gcloud_email_lines (name : string) :
  (forall pre, name <> pre +:+ LF) ->
  (forall pre, name <> pre +:+ CR) ->
  gcloud_email name = name /\
  gcloud_email (name +:+ LF) = name /\
  gcloud_email (name +:+ CR +:+ LF) = name.
Proof.
  intros Hlf Hcr. unfold gcloud_email. repeat split.
  - rewrite (TrimSuffix_none name (CR +:+ LF)), TrimSuffix_none; auto.
    intros pre Heq. rewrite <- str_app_assoc in Heq. now apply Hlf in Heq.
  - rewrite (TrimSuffix_none (name +:+ LF) (CR +:+ LF)); [apply TrimSuffix_app|].
    intros pre Heq. rewrite <- str_app_assoc in Heq.
    apply str_app_inj_r in Heq. now apply Hcr in Heq.
  - rewrite TrimSuffix_app. now apply TrimSuffix_none.
Qed.

(** X15. On a cluster that is not local, lacks the "devspace-user" binding
    and is reached through the gcp auth provider, an account name that gcloud
    prints bare or followed by one line break (LF or CRLF) gets a binding
    named "devspace-user" that grants the cluster role cluster-admin to this
    user; the result is the error of the Create call, if any. *)
Theorem google_binding_for_account (setup : Setup) (name gcloudOutput missing : string) :
  IsLocalKubernetes (CurrentContext setup) = false ->
  ClusterRoleBindingsGet setup ClusterRoleBindingName = Some missing ->
  uses_gcp setup = true ->
  GcloudAccount setup = (gcloudOutput, None) ->
  gcloudOutput = name \/ gcloudOutput = name +:+ LF \/ gcloudOutput = name +:+ CR +:+ LF ->
  name <> "" ->
  (forall pre, name <> pre +:+ LF) ->
  (forall pre, name <> pre +:+ CR) ->
  let binding :=
    {| BindingName := "devspace-user";
       Subjects := [{| SubjectKind := "User"; SubjectName := name |}];
       Role := {| APIGroup := "rbac.authorization.k8s.io"; RoleKind := "ClusterRole";
                  RoleName := "cluster-admin" |} |} in
  EnsureGoogleCloudClusterRoleBinding setup
  = (SetupApiError <$> ClusterRoleBindingsCreate setup binding,
     [EvBindingGet "devspace-user"; EvLogStartWait "Checking gcloud account"; EvGcloud;
      EvLogStopWait; EvBindingCreate binding]).
Proof.
  intros Hlocal Hget Hgcp Hgcloud Hout Hname Hlf Hcr binding.
  destruct (gcloud_email_lines name Hlf Hcr) as (Hplain & Hline & Hcrlf).
  assert (Hemail : gcloud_email gcloudOutput = name)
    by (destruct Hout as [-> | [-> | ->]]; assumption).
  unfold EnsureGoogleCloudClusterRoleBinding.
  rewrite Hlocal, Hget, Hgcp, Hgcloud, Hemail.
  apply String.eqb_neq in Hname. rewrite Hname. cbn [negb]. rewrite Hname.
  fold binding. change (admin_binding name) with binding.
  destruct (ClusterRoleBindingsCreate setup binding); reflexivity.
Qed.

Lemma google_binding_for_account_witness :
  EnsureGoogleCloudClusterRoleBinding (gcp_setup ("dev@example.com" +:+ CR +:+ LF) None)
  = (None,
     [EvBindingGet "devspace-user"; EvLogStartWait "Checking gcloud account"; EvGcloud;
      EvLogStopWait;
      EvBindingCreate
        {| BindingName := "devspace-user";
           Subjects := [{| SubjectKind := "User"; SubjectName := "dev@example.com" |}];
           Role := {| APIGroup := "rbac.authorization.k8s.io"; RoleKind := "ClusterRole";
                      RoleName := "cluster-admin" |} |}]).
Proof.
  apply (google_binding_for_account (gcp_setup ("dev@example.com" +:+ CR +:+ LF) None)
           "dev@example.com" ("dev@example.com" +:+ CR +:+ LF) "not found");
    try reflexivity.
  - right. right. reflexivity.
  - discriminate.
  - intros pre Heq. apply (f_equal (fun s => strings_HasSuffix s LF)) in Heq.
    rewrite HasSuffix_app in Heq. discriminate Heq.
  - intros pre Heq. apply (f_equal (fun s => strings_HasSuffix s CR)) in Heq.
    rewrite HasSuffix_app in Heq. discriminate Heq.
Defined.

Ltac setup_leaf :=
  intros [= <- <-]; cbn [In app fst snd] in *; repeat split; intros;
  repeat match goal with
         | H : _ \/ _ |- _ => destruct H
         | H : _ /\ _ |- _ => destruct H
         | H : exists _, _ |- _ => destruct H
         | H : False |- _ => destruct H
         end;
  try discriminate; try congruence; auto;
  try match goal with
      | H : EvBindingCreate _ = EvBindingCreate _ |- _ =>
        injection H as <-;
        match goal with Hc : ClusterRoleBindingsCreate _ _ = _ |- _ => now rewrite Hc end
      end.

(** X16. The binding helper calls gcloud, creates a binding or fails only on
    a cluster that is not local, lacks the binding and uses the gcp auth
    provider; everywhere else it returns without error and without creating
    anything. A binding it creates is the one for the account name printed
    by a successful gcloud run, and it fails with the "Couldn't determine
    google cloud username" error exactly when, on such a cluster, gcloud
    failed or printed no account name. *)
Theorem google_binding_only_when_needed (setup : Setup)
    (err : option SetupError) (events : list SetupEvent) :
  EnsureGoogleCloudClusterRoleBinding setup = (err, events) ->
  let needed :=
    IsLocalKubernetes (CurrentContext setup) = false /\
    ClusterRoleBindingsGet setup ClusterRoleBindingName <> None /\
    uses_gcp setup = true in
  (In EvGcloud events \/ (exists binding, In (EvBindingCreate binding) events)
   \/ err <> None -> needed) /\
  (forall binding,
     In (EvBindingCreate binding) events ->
     snd (GcloudAccount setup) = None /\
     gcloud_email (fst (GcloudAccount setup)) <> "" /\
     binding = admin_binding (gcloud_email (fst (GcloudAccount setup))) /\
     err = SetupApiError <$> ClusterRoleBindingsCreate setup binding) /\
  (err = Some ErrNoGoogleUser <->
   needed /\
   (snd (GcloudAccount setup) <> None \/ gcloud_email (fst (GcloudAccount setup)) = "")).
Proof.
  cbn zeta. unfold EnsureGoogleCloudClusterRoleBinding.
  destruct (IsLocalKubernetes (CurrentContext setup)) eqn:Hlocal; [setup_leaf|].
  destruct (ClusterRoleBindingsGet setup ClusterRoleBindingName) as [missing|] eqn:Hget;
    [|setup_leaf].
  destruct (uses_gcp setup) eqn:Hgcp; [|setup_leaf].
  destruct (GcloudAccount setup) as [gcloudOutput [gcloudErr|]] eqn:Hgcloud;
    cbn [fst snd]; [setup_leaf|].
  destruct (String.eqb_spec (gcloud_email gcloudOutput) "") as [Hempty|Hname];
    cbn [negb].
  - rewrite Hempty. cbn [String.eqb]. setup_leaf.
  - pose proof Hname as Hname'. apply String.eqb_neq in Hname'. rewrite Hname'.
    destruct (ClusterRoleBindingsCreate setup (admin_binding (gcloud_email gcloudOutput)))
      eqn:Hcreate; setup_leaf.
Qed.

Lemma google_binding_only_when_needed_witness :
  Some ErrNoGoogleUser = Some ErrNoGoogleUser <->
  (IsLocalKubernetes (CurrentContext (gcp_setup LF None)) = false /\
   ClusterRoleBindingsGet (gcp_setup LF None) ClusterRoleBindingName <> None /\
   uses_gcp (gcp_setup LF None) = true) /\
  (snd (GcloudAccount (gcp_setup LF None)) <> None
   \/ gcloud_email (fst (GcloudAccount (gcp_setup LF None))) = "").
Proof.
  apply (proj2 (proj2 (google_binding_only_when_needed (gcp_setup LF None)
           (Some ErrNoGoogleUser)
           [EvBindingGet "devspace-user"; EvLogStartWait "Checking gcloud account";
            EvGcloud; EvLogStopWait] eq_refl))).
Defined.

(** ** The default namespace *)

(** X17. [EnsureDefaultNamespace] creates the client's namespace exactly when
    the Get call for it failed, and then returns the error of the Create
    call; it returns without error exactly when the namespace was there or
    could be created. The line "Created namespace: <name>" is logged whenever
    Create was called, also when Create failed. *)
Theorem namespace_created_when_missing (client : Client) (setup : Setup) :
  let err := fst (EnsureDefaultNamespace client setup) in
  let events := snd (EnsureDefaultNamespace client setup) in
  let missing := NamespacesGet setup (Namespace client) <> None in
  (forall name, In (EvNamespaceCreate name) events <-> missing /\ name = Namespace client) /\
  (forall msg, In (EvLogDone msg) events
               <-> missing /\ msg = "Created namespace: " +:+ Namespace client) /\
  (err = None <-> ~ missing \/ NamespacesCreate setup (Namespace client) = None) /\
  (forall msg, err = Some (SetupApiError msg)
               <-> missing /\ NamespacesCreate setup (Namespace client) = Some msg).
Proof.
  cbn zeta. unfold EnsureDefaultNamespace.
  destruct (NamespacesGet setup (Namespace client)) as [e|]; cbn [fst snd In].
  - destruct (NamespacesCreate setup (Namespace client)) as [e'|]; cbn;
      repeat split; intros;
      repeat match goal with
             | H : _ \/ _ |- _ => destruct H
             | H : _ /\ _ |- _ => destruct H
             | H : False |- _ => destruct H
             end; subst; try discriminate; try congruence; auto;
      try (exfalso; match goal with H : ~ _ |- _ => apply H; discriminate end).
  - repeat split; intros;
      repeat match goal with
             | H : _ \/ _ |- _ => destruct H
             | H : _ /\ _ |- _ => destruct H
             | H : False |- _ => destruct H
             end; subst; try discriminate; try congruence; auto.
Qed.

Lemma namespace_created_when_missing_witness :
  In (EvLogDone "Created namespace: default")
     (snd (EnsureDefaultNamespace empty_cluster (gcp_setup "" None))) /\
  fst (EnsureDefaultNamespace empty_cluster (gcp_setup "" None))
  = Some (SetupApiError "forbidden").
Proof.
  split.
  - apply (proj1 (proj2 (namespace_created_when_missing empty_cluster (gcp_setup "" None)))
             "Created namespace: default").
    split; [discriminate|reflexivity].
  - apply (proj2 (proj2 (proj2 (namespace_created_when_missing empty_cluster
             (gcp_setup "" None)))) "forbidden").
    split; [discriminate|reflexivity].
Defined.

(** ** The selector of a deployment *)

Lemma Join_cons (x y : string) (rest : list string) (sep : string) :
  strings_Join (x :: y :: rest) sep = x +:+ sep +:+ strings_Join (y :: rest) sep.
Proof. reflexivity. Qed.

Lemma label_pair_not_empty (entry : string * string) : label_pair entry <> "".
Proof.
  unfold label_pair. intros Heq. apply (f_equal String.length) in Heq.
  rewrite !str_length_app in Heq. cbn in Heq. lia.
Qed.

Lemma label_fold_from (entries : list (string * string)) :
  forall matchLabelString : string,
  matchLabelString <> "" ->
  fold_left label_step entries matchLabelString
  = strings_Join (matchLabelString :: map label_pair entries) ",".
Proof.
  induction entries as [|entry rest IH]; intros acc Hacc; [reflexivity|].
  cbn [fold_left map]. rewrite Join_cons.
  assert (Hstep : label_step acc entry = acc +:+ "," +:+ label_pair entry).
  { unfold label_step, label_pair. destruct acc as [|x acc]; [contradiction|].
    cbn [String.length Nat.ltb Nat.leb]. now rewrite str_app_assoc. }
  rewrite Hstep, IH.
  - destruct rest as [|entry' rest]; cbn [map]; [reflexivity|].
    rewrite !Join_cons, !str_app_assoc. reflexivity.
  - intros Heq. apply (f_equal String.length) in Heq.
    rewrite !str_length_app in Heq. cbn in Heq. lia.
Qed.

Lemma label_fold (entries : list (string * string)) :
  fold_left label_step entries "" = strings_Join (map label_pair entries) ",".
Proof.
  destruct entries as [|entry rest]; [reflexivity|].
  cbn [fold_left map].
  change (label_step "" entry) with (label_pair entry).
  apply label_fold_from, label_pair_not_empty.
Qed.

(** X18. For a deployment that could be read, [GetPodsFromDeployment] fails
    with "No matchLabels defined deployment", without listing pods, when the
    deployment has no match labels. Otherwise it lists the pods of the
    namespace in use once, with the selector that joins "key=value" for every
    match label, each exactly once and in the order the map is visited, by
    single commas, and returns the answer of that call. *)
Theorem deployment_selector (range : gmap string string -> list (string * string))
    (client : Client) (setup : Setup) (deployment namespace : string)
    (matchLabels : gmap string string) :
  let ns := effective_namespace client namespace in
  DeploymentsGet setup ns deployment = inl matchLabels ->
  range matchLabels ≡ₚ map_to_list matchLabels ->
  (matchLabels = ∅ ->
   GetPodsFromDeployment range client setup deployment namespace
   = (inr ErrNoMatchLabels, [EvDeploymentGet ns deployment])) /\
  (matchLabels <> ∅ ->
   let selector := strings_Join (map label_pair (range matchLabels)) "," in
   GetPodsFromDeployment range client setup deployment namespace
   = (match PodsList client 0 ns selector with
      | ListOk podList => inl podList
      | ListErr msg => inr (SetupApiError msg)
      end,
      [EvDeploymentGet ns deployment; EvPodsList ns selector]) /\
   List.NoDup (range matchLabels) /\
   length (range matchLabels) = size matchLabels /\
   forall key value,
     In (key, value) (range matchLabels) <-> matchLabels !! key = Some value).
Proof.
  intros ns Hget Hperm. unfold GetPodsFromDeployment. fold ns. rewrite Hget. split.
  - intros ->. reflexivity.
  - intros Hne.
    assert (Hsize : (size matchLabels <=? 0)%nat = false).
    { apply Nat.leb_gt. apply map_size_non_empty_iff in Hne. lia. }
    rewrite Hsize, label_fold. cbn zeta. split; [reflexivity|]. split; [|split].
    + apply NoDup_ListNoDup. rewrite Hperm. apply NoDup_map_to_list.
    + rewrite Hperm. apply length_map_to_list.
    + intros key value. rewrite <- list_elem_of_In, Hperm.
      apply elem_of_map_to_list.
Qed.

Lemma deployment_selector_witness :
  GetPodsFromDeployment map_to_list empty_cluster (gcp_setup "" None) "web" ""
  = (inl {| Size := 2; Items := [] |},
     [EvDeploymentGet "default" "web";
      EvPodsList "default"
        (strings_Join (map label_pair (map_to_list (<["app" := "web"]>
                                                      (<["tier" := "front"]> ∅)))) ",")]).
Proof.
  refine (proj1 (proj2 (deployment_selector map_to_list empty_cluster (gcp_setup "" None)
            "web" "" (<["app" := "web"]> (<["tier" := "front"]> ∅)) eq_refl _) _)).
  - reflexivity.
  - intros Habs. apply (f_equal (fun m : gmap string string => m !! "app")) in Habs.
    vm_compute in Habs. discriminate Habs.
Defined.

(** * Budgets at the lower end of int64 *)

Lemma wrap64_below (z : Z) : - 2 ^ 63 - 2 ^ 64 <= z < - 2 ^ 63 -> wrap64 z = z + 2 ^ 64.
Proof.
  intros Hz. unfold wrap64.
  change (2 ^ 63) with 9223372036854775808 in *.
  change (2 ^ 64) with 18446744073709551616 in *.
  replace (z + 9223372036854775808)
    with (z + 9223372036854775808 + 18446744073709551616
          + (-1) * 18446744073709551616) by lia.
  rewrite Z.mod_add by lia. rewrite Z.mod_small; lia.
Qed.

(** X19. The budget is an int64 and its decrement wraps around: with a budget
    within two seconds of the smallest int64 the first decrement yields a
    large positive budget, so that against a cluster without matching pods
    [GetNewestRunningPod] does not stop after its first poll but goes on for
    [newest_passes (maxWaiting - 2s + 2^64)] further polls, more than four
    billion, before it returns its final error. *)
Theorem smallest_budget_wraps_around `{NodePkg} (clock : Clock) (client : Client)
    (labelSelector : string) (imageSelector : list string) (namespace : string)
    (maxWaiting : Duration) :
  let ns := effective_namespace client namespace in
  - 2 ^ 63 <= maxWaiting < - 2 ^ 63 + 2 * Second ->
  (forall n, exists podList,
      PodsList client n ns labelSelector = ListOk podList /\ Items podList = []) ->
  exists fuel s,
    GetNewestRunningPod fuel clock client labelSelector imageSelector namespace maxWaiting
      = Some (Failed (ErrNoPodFound labelSelector ns), s) /\
    calls s = S (newest_passes (maxWaiting - 2 * Second + 2 ^ 64)) /\
    4611686017 < Z.of_nat (calls s).
Proof.
  intros ns Hrange Hempty. unfold GetNewestRunningPod. fold ns.
  set (m1 := maxWaiting - 2 * Second + 2 ^ 64).
  assert (Hm1 : dur_sub maxWaiting (dur_mul waitingInterval 2) = m1).
  { rewrite two_intervals. unfold dur_sub. apply wrap64_below.
    change (2 ^ 63) with 9223372036854775808 in *.
    change (2 ^ 64) with 18446744073709551616 in *. unfold Second in *. lia. }
  assert (Hbig : 2 ^ 63 - 2 * Second <= m1 < 2 ^ 63).
  { subst m1. change (2 ^ 63) with 9223372036854775808 in *.
    change (2 ^ 64) with 18446744073709551616 in *. unfold Second in *. lia. }
  destruct (newest_loop_empty clock client labelSelector imageSelector ns Hempty
              (newest_passes m1)
              {| nl_maxWaiting := m1;
                 nl_sys := after_iteration ns labelSelector sys0 |})
    as (s & Hs & Hcalls); cbn [nl_maxWaiting].
  - change (2 ^ 63) with 9223372036854775808 in *. unfold Second in *. lia.
  - lia.
  - exists (S (S (newest_passes m1))), s.
    rewrite newest_loop_S, (newest_iteration_empty clock client labelSelector
                              imageSelector ns Hempty).
    cbn [nl_maxWaiting nl_sys]. rewrite Hm1.
    assert (Hpos : (0 <? m1) = true).
    { apply Z.ltb_lt. change (2 ^ 63) with 9223372036854775808 in *.
      unfold Second in *. lia. }
    rewrite Hpos. split; [exact Hs|].
    cbn [nl_sys nl_maxWaiting after_iteration calls sys0] in Hcalls.
    cbn [Nat.add] in Hcalls. split; [exact Hcalls|].
    rewrite Hcalls. unfold newest_passes.
    assert (4611686017 <= (m1 + 2 * Second - 1) / (2 * Second)).
    { apply Z.div_le_lower_bound; change (2 ^ 63) with 9223372036854775808 in *;
        unfold Second in *; lia. }
    lia.
Qed.

Lemma smallest_budget_wraps_around_witness :
  exists fuel s,
    GetNewestRunningPod fuel exact_clock empty_cluster "app=web" [] "" (- 2 ^ 63)
      = Some (Failed (ErrNoPodFound "app=web" "default"), s) /\
    calls s = S (newest_passes (- 2 ^ 63 - 2 * Second + 2 ^ 64)) /\
    4611686017 < Z.of_nat (calls s).
Proof.
  apply (smallest_budget_wraps_around exact_clock empty_cluster "app=web" [] "" (- 2 ^ 63)).
  - split; [reflexivity|]. reflexivity.
  - intros n. eexists. split; reflexivity.
Defined.
